(** * Document-utilities service: a shallow embedding of
      [services/docutils/server.py] and the properties of its extraction
      engine.

    The file has two halves.  The first embeds the Python values the service
    manipulates ([str], [bytes], dictionaries, the temporary-file system
    calls), the six extraction strategies, the [PARSERS] registry and the
    [/parse] coordinator.  The second states and proves the properties of
    that code. *)

From Stdlib Require Import ZArith NArith List String Ascii DecimalString Lia.
From Stdlib Require Import Sorted Permutation.
From Stdlib.Strings Require Import Byte.
From stdpp Require Import gmap list.
Import ListNotations.

Set Warnings "-register-all".
Open Scope Z_scope.

(* ===================================================================== *)
(** * Part I.  Python values                                              *)
(* ===================================================================== *)

(** ** [str]: a sequence of Unicode code points *)

(** A Python [str] is a sequence of code points; [len] counts code points.
    Code points are kept as [N] because the decoder below produces U+FFFD,
    which does not fit a byte. *)
Abbreviation str := (list N).
Abbreviation bytes := (list byte).

(** An ASCII literal as a [str]. *)
Definition u (s : string) : str := map N_of_ascii (list_ascii_of_string s).

(** An ASCII literal as [bytes]. *)
Definition b (s : string) : bytes := list_byte_of_string s.

Definition LF : N := 10.
Definition CR : N := 13.
Definition TAB : N := 9.

(** [len(s)] as a Python integer. *)
Definition len {A} (l : list A) : Z := Z.of_nat (length l).

(** Equality test on [str]. *)
Fixpoint str_eqb (s t : str) : bool :=
  match s, t with
  | [], [] => true
  | x :: s', y :: t' => N.eqb x y && str_eqb s' t'
  | _, _ => false
  end.

(** [sep.join(parts)]. *)
Fixpoint str_join (sep : str) (parts : list str) : str :=
  match parts with
  | [] => []
  | [p] => p
  | p :: rest => p ++ sep ++ str_join sep rest
  end.

(** [s.count(c)] for a one-character needle. *)
Definition str_count (c : N) (s : str) : Z :=
  len (List.filter (N.eqb c) s).

(** [str(n)] for a Python [int]. *)
Definition str_of_int (n : Z) : str := u (NilZero.string_of_int (Z.to_int n)).

(** ** Whitespace and [str.strip()] *)

(** The code points [str.strip()] removes when called without argument:
    those for which [str.isspace] holds. *)
Definition is_whitespace (c : N) : bool :=
  ((9 <=? c) && (c <=? 13) || (28 <=? c) && (c <=? 32)
   || (c =? 133) || (c =? 160) || (c =? 5760)
   || (8192 <=? c) && (c <=? 8202)
   || (c =? 8232) || (c =? 8233) || (c =? 8239) || (c =? 8287)
   || (c =? 12288))%N.

Fixpoint lstrip (s : str) : str :=
  match s with
  | [] => []
  | c :: s' => if is_whitespace c then lstrip s' else s
  end.

Definition rstrip (s : str) : str := rev (lstrip (rev s)).

Definition strip (s : str) : str := rstrip (lstrip s).

(** Truthiness of a [str]: non-empty. *)
Definition truthy (s : str) : bool :=
  match s with [] => false | _ => true end.

(** [s] has at least one code point that is not whitespace. *)
Definition has_text (s : str) : bool := existsb (fun c => negb (is_whitespace c)) s.

(** ** [str.lower()] *)

Definition is_ascii (c : N) : bool := (c <? 128)%N.

Definition ascii_lower_char (c : N) : N :=
  if ((65 <=? c) && (c <=? 90))%N then (c + 32)%N else c.

(** CPython lowers an all-ASCII string byte by byte and sends every other
    string through the Unicode database ([unicode_lower], a table the
    service does not own: it is a field of [Libraries] below). *)
Definition str_lower (unicode_lower : str -> str) (s : str) : str :=
  if forallb is_ascii s then map ascii_lower_char s else unicode_lower s.

(** ** [os.path.splitext] (posixpath) *)

Definition sep : N := 47.      (* "/" *)
Definition extsep : N := 46.   (* "." *)

(** [p.rfind(c)]: the index of the last occurrence of [c], or [-1];
    [i] is the index of the head of [p]. *)
Fixpoint rfind_from (c : N) (p : str) (i : Z) : Z :=
  match p with
  | [] => (-1)%Z
  | x :: rest =>
      let k := rfind_from c rest (i + 1) in
      if (0 <=? k)%Z then k else if N.eqb x c then i else (-1)%Z
  end.

Definition rfind (c : N) (p : str) : Z := rfind_from c p 0.

(** The slices [p[:k]], [p[k:]] and [p[k:k+1]] for [0 <= k]. *)
Definition slice_to (p : str) (k : Z) : str := firstn (Z.to_nat k) p.
Definition slice_from (p : str) (k : Z) : str := skipn (Z.to_nat k) p.
Definition slice_one (p : str) (k : Z) : str := firstn 1 (skipn (Z.to_nat k) p).

(** The [while filenameIndex < dotIndex] loop of [genericpath._splitext],
    which skips the leading dots of the last path component; [n] counts the
    iterations left, [dotIndex - filenameIndex]. *)
Fixpoint splitext_loop (n : nat) (p : str) (filenameIndex dotIndex : Z) : str * str :=
  match n with
  | O => (p, [])
  | S n' =>
      if negb (str_eqb (slice_one p filenameIndex) [extsep])
      then (slice_to p dotIndex, slice_from p dotIndex)
      else splitext_loop n' p (filenameIndex + 1) dotIndex
  end.

Definition splitext (p : str) : str * str :=
  let sepIndex := rfind sep p in
  let dotIndex := rfind extsep p in
  if (sepIndex <? dotIndex)%Z
  then splitext_loop (Z.to_nat (dotIndex - (sepIndex + 1))) p (sepIndex + 1) dotIndex
  else (p, []).

(** ** [sorted] on a list of [str] *)

(** [s <= t] in the code-point lexicographic order of Python strings. *)
Fixpoint str_leb (s t : str) : bool :=
  match s, t with
  | [], _ => true
  | _ :: _, [] => false
  | x :: s', y :: t' => (x <? y)%N || (N.eqb x y && str_leb s' t')
  end.

Fixpoint sorted_insert (x : str) (l : list str) : list str :=
  match l with
  | [] => [x]
  | y :: l' => if str_leb x y then x :: l else y :: sorted_insert x l'
  end.

(** [sorted(l)]: a stable sort; an insertion from the right keeps equal
    elements in their order. *)
Definition sorted (l : list str) : list str := fold_right sorted_insert [] l.

(** ** Dictionaries with insertion order *)

(** A [dict] keeps its keys in first-insertion order; assigning to a key
    that is present replaces the value in place. *)
Definition dict (V : Type) : Type := list (str * V).

Fixpoint dict_get {V} (k : str) (d : dict V) : option V :=
  match d with
  | [] => None
  | (k', v) :: d' => if str_eqb k k' then Some v else dict_get k d'
  end.

Fixpoint dict_set {V} (k : str) (v : V) (d : dict V) : dict V :=
  match d with
  | [] => [(k, v)]
  | (k', v') :: d' =>
      if str_eqb k k' then (k', v) :: d' else (k', v') :: dict_set k v d'
  end.

Definition dict_keys {V} (d : dict V) : list str := map fst d.

(* ===================================================================== *)
(** * Part II.  Text files                                                *)
(* ===================================================================== *)

(** ** The UTF-8 decoder with [errors="replace"] *)

(** The replacement character U+FFFD. *)
Definition REPLACEMENT : N := 65533.

Definition is_continuation (c : N) : bool := ((128 <=? c) && (c <? 192))%N.

Definition code2 (c1 c2 : N) : N := ((c1 - 192) * 64 + (c2 - 128))%N.
Definition code3 (c1 c2 c3 : N) : N :=
  ((c1 - 224) * 4096 + (c2 - 128) * 64 + (c3 - 128))%N.
Definition code4 (c1 c2 c3 c4 : N) : N :=
  ((c1 - 240) * 262144 + (c2 - 128) * 4096 + (c3 - 128) * 64 + (c4 - 128))%N.

(** A second byte that cannot follow the three-byte lead [ch]
    (overlong forms after E0, surrogates after ED). *)
Definition bad_second3 (ch ch2 : N) : bool :=
  negb (is_continuation ch2)
  || (if (ch2 <? 160)%N then (ch =? 224)%N else (ch =? 237)%N).

(** A second byte that cannot follow the four-byte lead [ch]
    (overlong forms after F0, code points above U+10FFFF after F4). *)
Definition bad_second4 (ch ch2 : N) : bool :=
  negb (is_continuation ch2)
  || (if (ch2 <? 144)%N then (ch =? 240)%N else (ch =? 244)%N).

(** [bytes.decode("utf-8", "replace")] as CPython's decoder runs it on a
    whole input: an invalid start byte and each maximal invalid prefix are
    replaced by one U+FFFD and decoding resumes after them; a sequence cut
    short by the end of the input is replaced by one U+FFFD. *)
Fixpoint utf8_decode_N (bs : list N) : str :=
  match bs with
  | [] => []
  | ch :: r1 =>
      if (ch <? 128)%N then ch :: utf8_decode_N r1
      else if (ch <? 194)%N then REPLACEMENT :: utf8_decode_N r1
      else if (ch <? 224)%N then
        match r1 with
        | [] => [REPLACEMENT]
        | ch2 :: r2 =>
            if is_continuation ch2 then code2 ch ch2 :: utf8_decode_N r2
            else REPLACEMENT :: utf8_decode_N r1
        end
      else if (ch <? 240)%N then
        match r1 with
        | [] => [REPLACEMENT]
        | ch2 :: r2 =>
            if bad_second3 ch ch2 then REPLACEMENT :: utf8_decode_N r1
            else
              match r2 with
              | [] => [REPLACEMENT]
              | ch3 :: r3 =>
                  if is_continuation ch3
                  then code3 ch ch2 ch3 :: utf8_decode_N r3
                  else REPLACEMENT :: utf8_decode_N r2
              end
        end
      else if (ch <? 245)%N then
        match r1 with
        | [] => [REPLACEMENT]
        | ch2 :: r2 =>
            if bad_second4 ch ch2 then REPLACEMENT :: utf8_decode_N r1
            else
              match r2 with
              | [] => [REPLACEMENT]
              | ch3 :: r3 =>
                  if negb (is_continuation ch3)
                  then REPLACEMENT :: utf8_decode_N r2
                  else
                    match r3 with
                    | [] => [REPLACEMENT]
                    | ch4 :: r4 =>
                        if is_continuation ch4
                        then code4 ch ch2 ch3 ch4 :: utf8_decode_N r4
                        else REPLACEMENT :: utf8_decode_N r3
                    end
              end
        end
      else REPLACEMENT :: utf8_decode_N r1
  end.

Definition utf8_decode_replace (data : bytes) : str :=
  utf8_decode_N (map Byte.to_N data).

(** ** Universal newlines *)

(** A file opened in text mode with the default [newline=None] translates
    every [\r\n] and every lone [\r] of the decoded text to [\n]. *)
Fixpoint universal_newlines (s : str) : str :=
  match s with
  | [] => []
  | c :: rest =>
      if N.eqb c CR then
        match rest with
        | c' :: rest' =>
            if N.eqb c' LF then LF :: universal_newlines rest'
            else LF :: universal_newlines rest
        | [] => [LF]
        end
      else c :: universal_newlines rest
  end.

(** [open(path, "r", encoding="utf-8", errors="replace").read()] on a file
    holding [data]. *)
Definition read_text (data : bytes) : str :=
  universal_newlines (utf8_decode_replace data).

(* ===================================================================== *)
(** * Part III.  Exceptions and results                                   *)
(* ===================================================================== *)

(** The exceptions the service can see.  [Exception] stands for any
    subclass of [Exception] raised by a parsing library, with the text
    [str(e)] gives; [BaseException] for the ones that are not subclasses of
    [Exception] ([KeyboardInterrupt], [SystemExit], ...), which
    [except Exception] lets through. *)
Inductive PyExc : Type :=
| Exception (msg : str)
| BaseException (msg : str)
| FileNotFoundError (path : str)
| HTTPException (status_code : Z) (detail : str).

(** [isinstance(e, Exception)]. *)
Definition is_Exception (e : PyExc) : bool :=
  match e with
  | BaseException _ => false
  | _ => true
  end.

(** [str(e)]. *)
Definition exc_str (e : PyExc) : str :=
  match e with
  | Exception msg | BaseException msg => msg
  | FileNotFoundError path =>
      u "[Errno 2] No such file or directory: '" ++ path ++ u "'"
  | HTTPException code detail => str_of_int code ++ u ": " ++ detail
  end.

(** A computation that returns or raises. *)
Inductive result (A : Type) : Type :=
| Ok (a : A)
| Raise (e : PyExc).
Arguments Ok {A} a.
Arguments Raise {A} e.

(** [result] is a monad; the bind is written [x ← r; k]. *)
#[export] Instance result_ret : MRet result := fun _ a => Ok a.
#[export] Instance result_bind : MBind result := fun _ _ k r =>
  match r with
  | Ok a => k a
  | Raise e => Raise e
  end.

(* ===================================================================== *)
(** * Part IV.  The extraction strategies                                 *)
(* ===================================================================== *)

(** Each strategy opens its file with a library (pymupdf, python-docx,
    openpyxl, python-pptx, BeautifulSoup) and then walks the object the
    library returns.  The objects are modelled by the attributes the
    strategy reads; the walk is the function [parse_*_document]. *)

(** [enumerate(l)], counting from [i]. *)
Fixpoint enumerate_from {A} (i : Z) (l : list A) : list (Z * A) :=
  match l with
  | [] => []
  | x :: l' => (i, x) :: enumerate_from (i + 1) l'
  end.

(** ** PDF *)

(** A [fitz.Document]: [page.get_text("text")] of each page, and
    [doc.metadata] ([None], or a dict whose values are [str] or [None]). *)
Record PdfDocument : Type := {
  page_texts : list str;
  metadata : option (dict (option str));
}.

Record PdfPage : Type := { page : Z; text : str }.

Record PdfResult : Type := {
  pdf_pages : Z;
  pdf_metadata : dict str;
  pdf_content : list PdfPage;
  pdf_full_text : str;
}.

(** [{k: v for k, v in metadata.items() if v}]. *)
Fixpoint nonempty_items (items : dict (option str)) : dict str :=
  match items with
  | [] => []
  | (k, Some v) :: rest =>
      if truthy v then (k, v) :: nonempty_items rest else nonempty_items rest
  | (_, None) :: rest => nonempty_items rest
  end.

Definition parse_pdf_document (doc : PdfDocument) : PdfResult :=
  let pages :=
    map (fun '(i, t) => {| page := i + 1; text := strip t |})
        (enumerate_from 0 (page_texts doc)) in
  let metadata := match metadata doc with Some m => m | None => [] end in
  {| pdf_pages := len pages;
     pdf_metadata := nonempty_items metadata;
     pdf_content := pages;
     pdf_full_text :=
       str_join [LF; LF]
         (map text (List.filter (fun p => truthy (text p)) pages)) |}.

(** ** DOCX *)

(** A [docx.Document]: [p.text] of each paragraph and, for each table, for
    each row, [cell.text] of each cell. *)
Record DocxDocument : Type := {
  paragraphs : list str;
  tables : list (list (list str));
}.

Record DocxResult : Type := {
  docx_paragraphs : Z;
  docx_tables : Z;
  docx_content : list str;
  docx_table_data : list (list (list str));
  docx_full_text : str;
}.

Definition parse_docx_document (doc : DocxDocument) : DocxResult :=
  let paragraphs := List.filter (fun p => truthy (strip p)) (paragraphs doc) in
  let tables := map (fun table => map (fun row => map strip row) table) (tables doc) in
  {| docx_paragraphs := len paragraphs;
     docx_tables := len tables;
     docx_content := paragraphs;
     docx_table_data := tables;
     docx_full_text := str_join [LF; LF] paragraphs |}.

(** ** XLSX *)

(** A cell value as [iter_rows(values_only=True)] yields it.  [CellOther]
    is a value of another type (float, date, time), carried with the text
    [str] gives for it. *)
Inductive Cell : Type :=
| CellNone
| CellStr (s : str)
| CellInt (n : Z)
| CellBool (v : bool)
| CellOther (printed : str).

(** [str(cell) if cell is not None else ""]. *)
Definition cell_str (c : Cell) : str :=
  match c with
  | CellNone => []
  | CellStr s => s
  | CellInt n => str_of_int n
  | CellBool true => u "True"
  | CellBool false => u "False"
  | CellOther printed => printed
  end.

(** A workbook: its sheets in declared order, each with its title and its
    rows.  [wb.sheetnames] lists the titles, [wb[name]] is the first sheet
    with that title. *)
Definition Workbook : Type := list (str * list (list Cell)).

Definition sheetnames (wb : Workbook) : list str := map fst wb.

Definition wb_getitem (wb : Workbook) (name : str) : list (list Cell) :=
  match dict_get name wb with
  | Some rows => rows
  | None => []
  end.

Record XlsxResult : Type := {
  xlsx_sheets : list str;
  xlsx_sheet_count : Z;
  xlsx_data : dict (list (list str));
  xlsx_full_text : str;
}.

(** The inner loop: the rows of one sheet that are kept. *)
Definition sheet_rows (ws : list (list Cell)) : list (list str) :=
  List.filter (fun str_row => existsb (fun c => truthy (strip c)) str_row)
              (map (fun row => map cell_str row) ws).

(** The outer loop, with the dictionary [sheets] as accumulator. *)
Fixpoint collect_sheets (wb : Workbook) (names : list str)
    (sheets : dict (list (list str))) : dict (list (list str)) :=
  match names with
  | [] => sheets
  | sheet_name :: rest =>
      collect_sheets wb rest
        (dict_set sheet_name (sheet_rows (wb_getitem wb sheet_name)) sheets)
  end.

Definition sheet_text (item : str * list (list str)) : str :=
  let '(name, rows) := item in
  (u "[" ++ name ++ u "]" ++ [LF]) ++ str_join [LF] (map (str_join [TAB]) rows).

Definition parse_xlsx_document (wb : Workbook) : XlsxResult :=
  let sheets := collect_sheets wb (sheetnames wb) [] in
  {| xlsx_sheets := dict_keys sheets;
     xlsx_sheet_count := len sheets;
     xlsx_data := sheets;
     xlsx_full_text := str_join [LF] (map sheet_text sheets) |}.

(** ** PPTX *)

(** A shape: [shape.text_frame] is [None] when [shape.has_text_frame] is
    false, else the [para.text] of its paragraphs. *)
Record Shape : Type := { text_frame : option (list str) }.

Definition has_text_frame (shape : Shape) : bool :=
  match text_frame shape with Some _ => true | None => false end.

(** A presentation: [prs.slides], each the list of its shapes. *)
Definition Presentation : Type := list (list Shape).

Record PptxSlide : Type := { slide : Z; slide_text : list str }.

Record PptxResult : Type := {
  pptx_slides : Z;
  pptx_content : list PptxSlide;
  pptx_full_text : str;
}.

(** The paragraphs of one shape that are appended to [texts]. *)
Definition shape_texts (shape : Shape) : list str :=
  match text_frame shape with
  | Some paras => List.filter truthy (map strip paras)
  | None => []
  end.

Definition slide_texts (shapes : list Shape) : list str :=
  flat_map shape_texts shapes.

Definition slide_block (s : PptxSlide) : str :=
  (u "--- Slide " ++ str_of_int (slide s) ++ u " ---" ++ [LF])
  ++ str_join [LF] (slide_text s).

Definition nonempty {A} (l : list A) : bool :=
  match l with [] => false | _ => true end.

Definition parse_pptx_document (prs : Presentation) : PptxResult :=
  let slides :=
    map (fun '(i, shapes) => {| slide := i + 1; slide_text := slide_texts shapes |})
        (enumerate_from 0 prs) in
  {| pptx_slides := len slides;
     pptx_content := slides;
     pptx_full_text :=
       str_join [LF; LF]
         (map slide_block (List.filter (fun s => nonempty (slide_text s)) slides)) |}.

(** ** HTML *)

(** The tree BeautifulSoup builds.  A [Comment] is a string that
    [get_text] leaves out: a comment and, with the parser the service
    uses, a declaration or a string inside a [template], [rt] or [rp]
    element. *)
Inductive Node : Type :=
| NavigableString (s : str)
| Comment (s : str)
| Tag (name : str) (contents : list Node).

(** The soup itself: the top-level nodes. *)
Definition Soup : Type := list Node.

(** [for tag in soup(names): tag.decompose()]: every tag with one of the
    names is removed from the tree, with all it contains. *)
Fixpoint decompose_all (names : list str) (n : Node) : list Node :=
  match n with
  | Tag name contents =>
      if existsb (str_eqb name) names then []
      else [Tag name (flat_map (decompose_all names) contents)]
  | _ => [n]
  end.

(** [soup.find(name)]: the first tag with that name in document order;
    the value is the tag's contents. *)
Fixpoint find_tag (name : str) (n : Node) : option (list Node) :=
  match n with
  | Tag name' contents =>
      if str_eqb name' name then Some contents
      else
        (fix first (l : list Node) : option (list Node) :=
           match l with
           | [] => None
           | c :: l' =>
               match find_tag name c with
               | Some r => Some r
               | None => first l'
               end
           end) contents
  | _ => None
  end.

Fixpoint soup_find (name : str) (soup : Soup) : option (list Node) :=
  match soup with
  | [] => None
  | n :: rest =>
      match find_tag name n with
      | Some r => Some r
      | None => soup_find name rest
      end
  end.

(** [tag.string]: the single string child, or the [string] of a single tag
    child; [None] when the tag has no child or more than one. *)
Fixpoint node_string (n : Node) : option str :=
  match n with
  | NavigableString s | Comment s => Some s
  | Tag _ [c] => node_string c
  | Tag _ _ => None
  end.

Definition tag_string (contents : list Node) : option str :=
  match contents with
  | [c] => node_string c
  | _ => None
  end.

(** The strings [get_text(strip=True)] collects: every [NavigableString] in
    document order, stripped, the empty ones left out. *)
Fixpoint all_strings (n : Node) : list str :=
  match n with
  | NavigableString s => if truthy (strip s) then [strip s] else []
  | Comment _ => []
  | Tag _ contents => flat_map all_strings contents
  end.

Definition get_text (separator : str) (soup : Soup) : str :=
  str_join separator (flat_map all_strings soup).

(** [title] is a [str] or Python's [None]. *)
Record HtmlResult : Type := {
  html_title : option str;
  html_full_text : str;
}.

Definition parse_html_soup (soup : Soup) : HtmlResult :=
  let soup := flat_map (decompose_all [u "script"; u "style"]) soup in
  let title :=
    match soup_find (u "title") soup with
    | Some contents => tag_string contents
    | None => Some []
    end in
  {| html_title := title;
     html_full_text := get_text [LF] soup |}.

(** ** Plain text *)

Record TextResult : Type := {
  text_full_text : str;
  text_lines : Z;
  text_characters : Z;
}.

(** [parse_text] once the file is opened: [text] is [f.read()]. *)
Definition parse_text_content (text : str) : TextResult :=
  {| text_full_text := text;
     text_lines := str_count LF text + 1;
     text_characters := len text |}.

(** ** The result dictionary *)

Inductive ExtractedDocument : Type :=
| PdfDoc (r : PdfResult)
| DocxDoc (r : DocxResult)
| XlsxDoc (r : XlsxResult)
| PptxDoc (r : PptxResult)
| HtmlDoc (r : HtmlResult)
| TextDoc (r : TextResult).

(** [result["format"]]. *)
Definition format (d : ExtractedDocument) : str :=
  match d with
  | PdfDoc _ => u "pdf"
  | DocxDoc _ => u "docx"
  | XlsxDoc _ => u "xlsx"
  | PptxDoc _ => u "pptx"
  | HtmlDoc _ => u "html"
  | TextDoc _ => u "text"
  end.

(** [result["full_text"]]. *)
Definition full_text (d : ExtractedDocument) : str :=
  match d with
  | PdfDoc r => pdf_full_text r
  | DocxDoc r => docx_full_text r
  | XlsxDoc r => xlsx_full_text r
  | PptxDoc r => pptx_full_text r
  | HtmlDoc r => html_full_text r
  | TextDoc r => text_full_text r
  end.

(* ===================================================================== *)
(** * Part V.  The file system and the libraries                          *)
(* ===================================================================== *)

(** What the service changes in the file system, in order. *)
Inductive FsEvent : Type :=
| Created (path : str)
| Written (path : str) (data : bytes)
| Unlinked (path : str).

(** The files by path, and the journal of the changes made so far. *)
Record World : Type := {
  files : gmap str bytes;
  journal : list FsEvent;
}.

(** What the service calls and does not define: the lower-casing of
    non-ASCII strings, the choice of a temporary name (any function of the
    files present and of the suffix), and the parsers of the five
    libraries.  The four that open a file themselves are handed the path,
    as in the source, and what the file system holds at that path; each is
    free to return a document or to raise, and what it returns or raises
    may depend on the path (an error text that names the file).
    [BeautifulSoup] is handed the text the strategy has read. *)
Record Libraries : Type := {
  unicode_lower : str -> str;
  mkstemp_name : gmap str bytes -> str -> str;
  fitz_open : str -> option bytes -> result PdfDocument;
  docx_Document : str -> option bytes -> result DocxDocument;
  load_workbook : str -> option bytes -> result Workbook;
  pptx_Presentation : str -> option bytes -> result Presentation;
  BeautifulSoup : str -> result Soup;
}.

(** Opening a file for reading: [FileNotFoundError] when it is absent. *)
Definition open_read (path : str) (w : World) : result bytes :=
  match files w !! path with
  | Some data => Ok data
  | None => Raise (FileNotFoundError path)
  end.

(** [tempfile.NamedTemporaryFile(suffix=suffix, delete=False)]: an empty
    file is created under the name the library picks. *)
Definition NamedTemporaryFile (L : Libraries) (suffix : str) (w : World) : str * World :=
  let name := mkstemp_name L (files w) suffix in
  (name, {| files := <[name := []]> (files w);
            journal := journal w ++ [Created name] |}).

(** [tmp.write(content)], flushed when the [with] block closes the file. *)
Definition file_write (path : str) (content : bytes) (w : World) : World :=
  {| files := <[path := content]> (files w);
     journal := journal w ++ [Written path content] |}.

(** [os.unlink(path)]: removes the file, and raises [FileNotFoundError]
    when there is none. *)
Definition os_unlink (path : str) (w : World) : result World :=
  match files w !! path with
  | Some _ =>
      Ok {| files := delete path (files w);
            journal := journal w ++ [Unlinked path] |}
  | None => Raise (FileNotFoundError path)
  end.

(** ** The strategies as the registry holds them *)

Definition Parser : Type := Libraries -> str -> World -> result ExtractedDocument.

Definition parse_pdf : Parser := fun L file_path w =>
  doc ← fitz_open L file_path (files w !! file_path);
  Ok (PdfDoc (parse_pdf_document doc)).

Definition parse_docx : Parser := fun L file_path w =>
  doc ← docx_Document L file_path (files w !! file_path);
  Ok (DocxDoc (parse_docx_document doc)).

Definition parse_xlsx : Parser := fun L file_path w =>
  wb ← load_workbook L file_path (files w !! file_path);
  Ok (XlsxDoc (parse_xlsx_document wb)).

Definition parse_pptx : Parser := fun L file_path w =>
  prs ← pptx_Presentation L file_path (files w !! file_path);
  Ok (PptxDoc (parse_pptx_document prs)).

Definition parse_html : Parser := fun L file_path w =>
  data ← open_read file_path w;
  soup ← BeautifulSoup L (read_text data);
  Ok (HtmlDoc (parse_html_soup soup)).

Definition parse_text : Parser := fun L file_path w =>
  data ← open_read file_path w;
  Ok (TextDoc (parse_text_content (read_text data))).

(** ** The registry *)

Definition PARSERS : dict Parser :=
  [ (u ".pdf", parse_pdf);
    (u ".docx", parse_docx);
    (u ".xlsx", parse_xlsx);
    (u ".pptx", parse_pptx);
    (u ".html", parse_html);
    (u ".htm", parse_html);
    (u ".txt", parse_text);
    (u ".md", parse_text);
    (u ".csv", parse_text);
    (u ".json", parse_text);
    (u ".xml", parse_text);
    (u ".yaml", parse_text);
    (u ".yml", parse_text);
    (u ".log", parse_text) ].

(** [os.path.splitext(filename)[1].lower()]. *)
Definition extension (L : Libraries) (filename : str) : str :=
  str_lower (unicode_lower L) (snd (splitext filename)).

(** The strategy the coordinator picks for a file name, [None] when the
    extension is not a key of [PARSERS]. *)
Definition resolve (L : Libraries) (filename : str) : option Parser :=
  dict_get (extension L filename) PARSERS.

(** [GET /formats]. *)
Definition supported_formats : list str := sorted (dict_keys PARSERS).

(* ===================================================================== *)
(** * Part VI.  The coordinator                                           *)
(* ===================================================================== *)

(** The body of a successful response: the strategy's dictionary and the
    three keys the coordinator adds.  [processing_time] is in
    milliseconds. *)
Record Response : Type := {
  document : ExtractedDocument;
  filename : str;
  file_size : Z;
  processing_time : Z;
}.

(** [file.filename or "document"]. *)
Definition filename_or_default (name : option str) : str :=
  match name with
  | Some n => if truthy n then n else u "document"
  | None => u "document"
  end.

Definition unsupported_detail (ext : str) : str :=
  u "Unsupported format: " ++ ext ++ u ". Supported: "
  ++ str_join (u ", ") (sorted (dict_keys PARSERS)).

Definition failed_detail (filename : str) (e : PyExc) : str :=
  u "Failed to parse " ++ filename ++ u ": " ++ exc_str e.

(** The [try] block with its [except Exception] clause.  Building
    [JSONResponse(result)], the last statement of the block, is taken to
    succeed: the dictionary the strategy returned, with the three keys
    added, is the response. *)
Definition try_parse (L : Libraries) (parser : Parser) (filename : str)
    (content : bytes) (elapsed : Z) (tmp_path : str) (w : World) : result Response :=
  match parser L tmp_path w with
  | Ok result =>
      Ok {| document := result;
            filename := filename;
            file_size := len content;
            processing_time := elapsed |}
  | Raise e =>
      if is_Exception e
      then Raise (HTTPException 500 (failed_detail filename e))
      else Raise e
  end.

(** [POST /parse].  [upload_name] is [file.filename], [content] what
    [file.read()] returns and [elapsed] what the clock measures around the
    strategy.  The function returns the response or the exception that
    leaves the handler, and the world it leaves behind.  The form field
    [pages] is read by no statement of the handler and the two log lines
    change nothing the handler returns: both are left out. *)
Definition parse_document (L : Libraries) (upload_name : option str)
    (content : bytes) (elapsed : Z) (w : World) : result Response * World :=
  let filename := filename_or_default upload_name in
  let ext := extension L filename in
  match dict_get ext PARSERS with
  | None => (Raise (HTTPException 400 (unsupported_detail ext)), w)
  | Some parser =>
      let '(tmp_path, w1) := NamedTemporaryFile L ext w in
      let w2 := file_write tmp_path content w1 in
      let outcome := try_parse L parser filename content elapsed tmp_path w2 in
      (* finally *)
      match os_unlink tmp_path w2 with
      | Ok w3 => (outcome, w3)
      | Raise e => (Raise e, w2)
      end
  end.

(* ===================================================================== *)
(** * Part VII.  Predicates of the statements                             *)
(* ===================================================================== *)

(** ** File names *)

(** The last path component of [p]: what follows its last ["/"]. *)
Definition last_component (p : str) : str := slice_from p (rfind sep p + 1).

(** The last component of [base] has a character that is not a dot: a dot
    appended to [base] is then not a leading dot. *)
Definition stem_ok (base : str) : bool :=
  existsb (fun c => negb (N.eqb c extsep)) (last_component base).

(** [e] has no dot, and [e] has no slash. *)
Definition no_dot (e : str) : bool := forallb (fun c => negb (N.eqb c extsep)) e.
Definition no_sep (e : str) : bool := forallb (fun c => negb (N.eqb c sep)) e.

(** The text after the final ["."] of a file name, lower-cased: what the
    registry's contract calls significant.  [None] when the name has no
    dot. *)
Definition text_after_final_dot (L : Libraries) (filename : str) : option str :=
  let k := rfind extsep filename in
  if (0 <=? k)%Z
  then Some (str_lower (unicode_lower L) (slice_from filename (k + 1)))
  else None.

(** ** Order *)

(** [s <= t] for Python strings. *)
Definition str_le (s t : str) : Prop := str_leb s t = true.

(** ** Text in the structured content *)

Definition cells_have_text (rows : list (list str)) : bool :=
  existsb (existsb has_text) rows.

(** The structured content of a result has text that is not whitespace,
    counting pages, paragraphs, table cells, sheet rows and slide texts. *)
Definition structured_has_text (d : ExtractedDocument) : bool :=
  match d with
  | PdfDoc r => existsb (fun p => has_text (text p)) (pdf_content r)
  | DocxDoc r =>
      existsb has_text (docx_content r)
      || existsb cells_have_text (docx_table_data r)
  | XlsxDoc r => existsb (fun item => cells_have_text (snd item)) (xlsx_data r)
  | PptxDoc r => existsb (fun s => existsb has_text (slide_text s)) (pptx_content r)
  | HtmlDoc r => has_text (html_full_text r)
  | TextDoc r => has_text (text_full_text r)
  end.

(** The same without the table cells of a Word document. *)
Definition joined_has_text (d : ExtractedDocument) : bool :=
  match d with
  | DocxDoc r => existsb has_text (docx_content r)
  | _ => structured_has_text d
  end.

(** ** A sample installation *)

(** Documents for the examples: a Word document with a blank paragraph and
    the table [[x, y], [, z]]; a workbook with one sheet whose second row is
    empty; a page with an empty [title] element. *)
Definition sample_docx : DocxDocument :=
  {| paragraphs := [u "   "];
     tables := [[[u "x"; u "y"]; [u ""; u "z"]]] |}.

Definition sample_workbook : Workbook :=
  [(u "Sheet1",
    [[CellStr (u "a"); CellStr (u "b")];
     [CellStr (u ""); CellStr (u "")];
     [CellStr (u "c"); CellStr (u "d")]])].

Definition sample_soup : Soup :=
  [Tag (u "html")
     [Tag (u "head") [Tag (u "title") []];
      Tag (u "body") [Tag (u "p") [NavigableString (u "x")]]]].

(** Libraries that answer with the sample documents whatever the bytes,
    and a PDF library that rejects its input. *)
Definition sample_libraries : Libraries :=
  {| unicode_lower := fun s => s;
     mkstemp_name := fun _ suffix => u "/tmp/tmpq3x8k2_a" ++ suffix;
     fitz_open := fun _ _ => Raise (Exception (u "cannot open broken document"));
     docx_Document := fun _ _ => Ok sample_docx;
     load_workbook := fun _ _ => Ok sample_workbook;
     pptx_Presentation := fun _ _ => Ok [];
     BeautifulSoup := fun _ => Ok sample_soup |}.

Definition empty_world : World := {| files := ∅; journal := [] |}.

(** A world with one file. *)
Definition world_with (path : str) (data : bytes) : World :=
  {| files := {[ path := data ]}; journal := [] |}.

(** ** Table cells *)

(** The cell at row [j], position [k] of table [i], counting from 0. *)
Definition cell_at (ts : list (list (list str))) (i j k : nat) : option str :=
  match nth_error ts i with
  | Some table =>
      match nth_error table j with
      | Some row => nth_error row k
      | None => None
      end
  | None => None
  end.

(** ** Occurrence and trimmed text *)

(** [s] occurs in [t] as a run of consecutive code points. *)
Definition occurs_in (s t : str) : Prop := exists a c, t = a ++ s ++ c.

(** [s] is empty or starts with a code point that is not whitespace. *)
Definition starts_clean (s : str) : bool :=
  match s with
  | [] => true
  | c :: _ => negb (is_whitespace c)
  end.

(** [s] has no whitespace at either end. *)
Definition clean_ends (s : str) : bool := starts_clean s && starts_clean (rev s).

(** ** Trees *)

(** A tag with one of the names occurs in the tree. *)
Fixpoint has_tag (names : list str) (n : Node) : bool :=
  match n with
  | Tag name contents =>
      existsb (str_eqb name) names || existsb (has_tag names) contents
  | _ => false
  end.

(** The plain strings of a tree that have no [script] and no [style]
    element above them, in document order and as they are in the tree. *)
Fixpoint visible_strings (n : Node) : list str :=
  match n with
  | NavigableString s => [s]
  | Comment _ => []
  | Tag name contents =>
      if str_eqb name (u "script") || str_eqb name (u "style") then []
      else flat_map visible_strings contents
  end.

(** Induction on a tree, with the property known of every child. *)
Fixpoint Node_nested_ind (P : Node -> Prop)
    (Hstring : forall s, P (NavigableString s))
    (Hcomment : forall s, P (Comment s))
    (Htag : forall name contents, Forall P contents -> P (Tag name contents))
    (n : Node) : P n :=
  match n with
  | NavigableString s => Hstring s
  | Comment s => Hcomment s
  | Tag name contents =>
      Htag name contents
        ((fix all (l : list Node) : Forall P l :=
            match l with
            | [] => @List.Forall_nil Node P
            | c :: l' =>
                @List.Forall_cons Node P c l'
                  (Node_nested_ind P Hstring Hcomment Htag c) (all l')
            end) contents)
  end.

(** ** UTF-8 *)

(** A code point a [str] can be encoded from: up to U+10FFFF and not a
    surrogate. *)
Definition is_scalar (c : N) : bool :=
  ((c <? 55296) || (57344 <=? c) && (c <? 1114112))%N.

(** [chr(c).encode("utf-8")], as byte values. *)
Definition utf8_encode_char (c : N) : list N :=
  (if c <? 128 then [c]
   else if c <? 2048 then [192 + c / 64; 128 + c mod 64]
   else if c <? 65536 then
     [224 + c / 4096; 128 + (c / 64) mod 64; 128 + c mod 64]
   else
     [240 + c / 262144; 128 + (c / 4096) mod 64; 128 + (c / 64) mod 64;
      128 + c mod 64])%N.

(** [s.encode("utf-8")], as byte values. *)
Definition utf8_encode (s : str) : list N := flat_map utf8_encode_char s.

(* ===================================================================== *)
(** * Part VIII.  Properties of the Python values                          *)
(* ===================================================================== *)

(** ** [str_eqb] decides equality *)

Lemma str_eqb_spec (s t : str) : reflect (s = t) (str_eqb s t).
Proof.
  revert t; induction s as [|x s IH]; intros [|y t]; simpl;
    try (constructor; congruence).
  destruct (N.eqb_spec x y) as [->|Hne]; simpl.
  - destruct (IH t) as [->|Hne]; constructor; congruence.
  - constructor; congruence.
Qed.

Lemma str_eqb_refl (s : str) : str_eqb s s = true.
Proof. by destruct (str_eqb_spec s s). Qed.

Lemma str_eqb_neq (s t : str) : s <> t -> str_eqb s t = false.
Proof. by destruct (str_eqb_spec s t). Qed.

(** ** [strip] and non-whitespace text *)

Lemma has_text_app (s t : str) : has_text (s ++ t) = has_text s || has_text t.
Proof. apply existsb_app. Qed.

Lemma has_text_rev (s : str) : has_text (rev s) = has_text s.
Proof.
  induction s as [|c s IH]; [done|].
  simpl rev. rewrite has_text_app, IH. simpl.
  rewrite orb_false_r. apply orb_comm.
Qed.

Lemma truthy_rev (s : str) : truthy (rev s) = truthy s.
Proof.
  destruct s as [|c s]; [done|]. simpl.
  by destruct (rev s).
Qed.

Lemma truthy_lstrip (s : str) : truthy (lstrip s) = has_text s.
Proof.
  induction s as [|c s IH]; [done|]. simpl.
  by destruct (is_whitespace c).
Qed.

Lemma has_text_lstrip (s : str) : has_text (lstrip s) = has_text s.
Proof.
  induction s as [|c s IH]; [done|]. simpl.
  destruct (is_whitespace c) eqn:E; simpl; [done|]. by rewrite E.
Qed.

(** The trimmed text is non-empty exactly when the text has a code point
    that is not whitespace. *)
Lemma truthy_strip (s : str) : truthy (strip s) = has_text s.
Proof.
  unfold strip, rstrip.
  by rewrite truthy_rev, truthy_lstrip, has_text_rev, has_text_lstrip.
Qed.

Lemma has_text_truthy (s : str) : has_text s = true -> truthy s = true.
Proof. by destruct s. Qed.

Lemma truthy_true (s : str) : truthy s = true <-> s <> [].
Proof. destruct s; simpl; split; congruence. Qed.

Lemma strip_empty_iff (s : str) : strip s = [] <-> has_text s = false.
Proof.
  rewrite <- truthy_strip. destruct (strip s); simpl; split; congruence.
Qed.

(** What [strip] keeps still has its text. *)
Lemma has_text_strip (s : str) : has_text (strip s) = has_text s.
Proof.
  unfold strip, rstrip.
  by rewrite has_text_rev, has_text_lstrip, has_text_rev, has_text_lstrip.
Qed.

(** ** [str_join] *)

Lemma str_join_cons (sep : str) (p : str) (rest : list str) :
  str_join sep (p :: rest) =
  match rest with [] => p | _ => p ++ sep ++ str_join sep rest end.
Proof. by destruct rest. Qed.

(** A join with a non-empty part is not empty. *)
Lemma str_join_nonempty (sep : str) (parts : list str) (p : str) :
  In p parts -> p <> [] -> str_join sep parts <> [].
Proof.
  induction parts as [|q rest IH]; intros Hin Hp; [done|].
  rewrite str_join_cons. destruct Hin as [->|Hin].
  - destruct rest; [done|]. by destruct p.
  - destruct rest as [|r rest']; [done|].
    intros Heq. apply app_eq_nil in Heq as [_ Heq].
    apply app_eq_nil in Heq as [_ Heq]. by apply IH.
Qed.

(** ** [rfind] and [splitext] *)

Lemma rfind_from_notin (c : N) (p : str) (i : Z) :
  ~ In c p -> rfind_from c p i = -1.
Proof.
  revert i; induction p as [|x p IH]; intros i Hnot; [done|].
  simpl. rewrite IH by (intros H; apply Hnot; by right). simpl.
  destruct (N.eqb_spec x c) as [->|_]; [|done].
  exfalso; apply Hnot; by left.
Qed.

Lemma rfind_from_bounds (c : N) (p : str) (i : Z) :
  0 <= i -> rfind_from c p i = -1 \/ i <= rfind_from c p i < i + len p.
Proof.
  unfold len. revert i; induction p as [|x p IH]; intros i Hi; [by left|].
  simpl rfind_from. destruct (IH (i + 1)) as [->|Hb]; [lia| |].
  - simpl. destruct (N.eqb x c); [right|left]; simpl length; lia.
  - destruct (Z.leb_spec 0 (rfind_from c p (i + 1))); simpl length; [right|]; lia.
Qed.

(** Text without [c] after the string does not move the last [c]. *)
Lemma rfind_from_app_notin (c : N) (s t : str) (i : Z) :
  ~ In c t -> rfind_from c (s ++ t) i = rfind_from c s i.
Proof.
  intros Hnot. revert i; induction s as [|x s IH]; intros i; simpl.
  - by apply rfind_from_notin.
  - by rewrite IH.
Qed.

(** The last [c] is found where it is. *)
Lemma rfind_from_last (c : N) (s t : str) (i : Z) :
  0 <= i -> ~ In c t -> rfind_from c (s ++ c :: t) i = i + len s.
Proof.
  intros Hi Hnot. unfold len. revert i Hi; induction s as [|x s IH]; intros i Hi.
  - simpl. rewrite rfind_from_notin by done. simpl.
    rewrite N.eqb_refl. lia.
  - simpl app. simpl rfind_from. rewrite IH by lia.
    destruct (Z.leb_spec 0 (i + 1 + Z.of_nat (length s))); simpl length; lia.
Qed.

Lemma slice_one_at (pre post : str) (c : N) :
  slice_one (pre ++ c :: post) (len pre) = [c].
Proof.
  unfold slice_one, len. rewrite Nat2Z.id.
  rewrite skipn_app, Nat.sub_diag, skipn_all. done.
Qed.

(** The loop returns the split at the first character that is not a dot,
    and no extension when it meets only dots. *)
Lemma splitext_loop_spec (pre mid post : str) (d : Z) :
  splitext_loop (length mid) (pre ++ mid ++ post) (len pre) d =
  if existsb (fun c => negb (N.eqb c extsep)) mid
  then (slice_to (pre ++ mid ++ post) d, slice_from (pre ++ mid ++ post) d)
  else (pre ++ mid ++ post, []).
Proof.
  revert pre; induction mid as [|c mid IH]; intros pre; [done|].
  simpl length. simpl splitext_loop. simpl app at 2.
  rewrite slice_one_at. simpl str_eqb. rewrite andb_true_r. simpl existsb.
  destruct (N.eqb c extsep) eqn:E; simpl; [|done].
  replace (pre ++ c :: mid ++ post) with ((pre ++ [c]) ++ mid ++ post)
    by (by rewrite <- app_assoc).
  replace (len pre + 1) with (len (pre ++ [c]))
    by (unfold len; rewrite length_app; simpl; lia).
  apply IH.
Qed.

Lemma no_dot_spec (e : str) : no_dot e = true -> ~ In extsep e.
Proof.
  unfold no_dot. rewrite forallb_forall. intros H Hin.
  specialize (H _ Hin). by rewrite N.eqb_refl in H.
Qed.

Lemma no_sep_spec (e : str) : no_sep e = true -> ~ In sep e.
Proof.
  unfold no_sep. rewrite forallb_forall. intros H Hin.
  specialize (H _ Hin). by rewrite N.eqb_refl in H.
Qed.

Lemma no_sep_false (e : str) : no_sep e = false -> In sep e.
Proof.
  induction e as [|c e IH]; simpl; [done|].
  destruct (N.eqb_spec c sep) as [->|_]; simpl; [by left|].
  intros H. right. by apply IH.
Qed.

(** A [c] that occurs is found, at or after the start. *)
Lemma rfind_from_in (c : N) (t : str) (i : Z) :
  0 <= i -> In c t -> i <= rfind_from c t i.
Proof.
  revert i; induction t as [|x t IH]; intros i Hi Hin; [done|].
  simpl rfind_from.
  destruct (rfind_from_bounds c t (i + 1) ltac:(lia)) as [Hk|Hk].
  - rewrite Hk. simpl. destruct Hin as [->|Hin].
    + rewrite N.eqb_refl. lia.
    + specialize (IH (i + 1) ltac:(lia) Hin). lia.
  - destruct (Z.leb_spec 0 (rfind_from c t (i + 1))); lia.
Qed.

(** A [c] in the text after the string is the one found. *)
Lemma rfind_from_app_in (c : N) (s t : str) (i : Z) :
  0 <= i -> In c t -> rfind_from c (s ++ t) i = rfind_from c t (i + len s).
Proof.
  intros Hi Hin. unfold len. revert i Hi; induction s as [|x s IH]; intros i Hi.
  - simpl. f_equal. lia.
  - simpl app. simpl rfind_from. rewrite IH by lia.
    replace (i + 1 + Z.of_nat (length s)) with (i + Z.of_nat (length (x :: s)))
      by (simpl length; lia).
    pose proof (rfind_from_in c t (i + Z.of_nat (length (x :: s))) ltac:(lia) Hin).
    destruct (Z.leb_spec 0 (rfind_from c t (i + Z.of_nat (length (x :: s)))));
      [done|lia].
Qed.

(** [splitext] on a name whose last dot is followed by [e]: the extension
    [.e] is split off when [e] has no slash and the dot is not a leading
    dot of the last path component; otherwise there is no extension. *)
Lemma splitext_spec (base e : str) :
  no_dot e = true ->
  splitext (base ++ extsep :: e) =
  if no_sep e && stem_ok base
  then (base, extsep :: e)
  else (base ++ extsep :: e, []).
Proof.
  intros He. apply no_dot_spec in He.
  unfold splitext, rfind. rewrite rfind_from_last by done.
  destruct (no_sep e) eqn:Hsep; simpl andb.
  - apply no_sep_spec in Hsep.
    rewrite rfind_from_app_notin by (by intros [Heq|Hin]).
    pose proof (rfind_from_bounds sep base 0 ltac:(lia)) as Hb.
    set (k := rfind_from sep base 0) in *. rewrite Z.add_0_l in *.
    assert (Hlt : (k <? len base) = true) by (apply Z.ltb_lt; unfold len in *; lia).
    rewrite Hlt.
    set (pre := firstn (Z.to_nat (k + 1)) base).
    set (mid := skipn (Z.to_nat (k + 1)) base).
    assert (Hbase : base = pre ++ mid) by (symmetry; apply firstn_skipn).
    assert (Hpre : len pre = k + 1).
    { unfold pre, len in *. rewrite length_firstn. lia. }
    assert (Hmid : Z.to_nat (len base - (k + 1)) = length mid).
    { unfold mid, len in *. rewrite length_skipn. lia. }
    rewrite Hmid, <- Hpre.
    replace (base ++ extsep :: e) with (pre ++ mid ++ extsep :: e)
      by (by rewrite Hbase, <- app_assoc).
    rewrite splitext_loop_spec.
    unfold stem_ok, last_component, slice_from, rfind. fold k. fold mid.
    destruct (existsb _ mid); [|done].
    unfold slice_to, slice_from, len. rewrite Nat2Z.id.
    rewrite app_assoc, <- Hbase.
    rewrite firstn_app, Nat.sub_diag, firstn_all, app_nil_r.
    by rewrite skipn_app, Nat.sub_diag, skipn_all.
  - apply no_sep_false in Hsep.
    rewrite rfind_from_app_in by (lia || by right).
    pose proof (rfind_from_in sep (extsep :: e) (0 + len base)
                  ltac:(unfold len; lia) ltac:(by right)) as Hge.
    destruct (Z.ltb_spec (rfind_from sep (extsep :: e) (0 + len base))
                (0 + len base)); [lia|done].
Qed.

(** A name with no dot has no extension. *)
Lemma splitext_no_dot (p : str) : ~ In extsep p -> splitext p = (p, []).
Proof.
  intros Hnot. unfold splitext, rfind.
  rewrite (rfind_from_notin extsep) by done.
  destruct (rfind_from_bounds sep p 0 ltac:(lia)) as [->|Hb]; [done|].
  destruct (Z.ltb_spec (rfind_from sep p 0) (-1)); [lia|done].
Qed.

(** ** [sorted] sorts *)

Lemma str_leb_total (s t : str) : str_leb s t = false -> str_leb t s = true.
Proof.
  revert t; induction s as [|x s IH]; intros [|y t]; simpl; try done.
  intros H. apply orb_false_iff in H as [Hlt H].
  apply N.ltb_ge in Hlt.
  destruct (N.eqb_spec x y) as [->|Hne]; simpl in H.
  - rewrite N.eqb_refl, (IH _ H). apply orb_true_r.
  - apply orb_true_iff; left. apply N.ltb_lt. lia.
Qed.

Lemma str_leb_trans (s t r : str) :
  str_leb s t = true -> str_leb t r = true -> str_leb s r = true.
Proof.
  revert t r; induction s as [|x s IH]; intros [|y t] [|z r]; simpl; try done.
  intros H1 H2.
  apply orb_true_iff in H1 as [H1|H1]; apply orb_true_iff in H2 as [H2|H2];
    repeat match goal with
           | H : (_ <? _)%N = true |- _ => apply N.ltb_lt in H
           | H : _ && _ = true |- _ => apply andb_true_iff in H as [? ?]
           | H : N.eqb _ _ = true |- _ => apply N.eqb_eq in H; subst
           end;
    apply orb_true_iff.
  - left; apply N.ltb_lt; lia.
  - left; by apply N.ltb_lt.
  - left; by apply N.ltb_lt.
  - right. rewrite N.eqb_refl. simpl. eauto.
Qed.

#[export] Instance str_le_trans : Transitive str_le.
Proof. intros s t r. apply str_leb_trans. Qed.

Lemma sorted_insert_perm (x : str) (l : list str) :
  Permutation (x :: l) (sorted_insert x l).
Proof.
  induction l as [|y l IH]; simpl; [done|].
  destruct (str_leb x y); [done|].
  rewrite perm_swap. by apply perm_skip.
Qed.

Lemma sorted_insert_hd (x y : str) (l : list str) :
  str_le y x -> HdRel str_le y l -> HdRel str_le y (sorted_insert x l).
Proof.
  intros Hyx Hhd. destruct l as [|z l]; simpl.
  - by constructor.
  - destruct (str_leb x z); constructor; [done|]. by inversion Hhd.
Qed.

Lemma sorted_insert_sorted (x : str) (l : list str) :
  Sorted str_le l -> Sorted str_le (sorted_insert x l).
Proof.
  induction 1 as [|y l Hs IH Hhd]; simpl.
  - by repeat constructor.
  - destruct (str_leb x y) eqn:E.
    + constructor; [by constructor|by constructor].
    + constructor; [done|].
      apply sorted_insert_hd; [|done]. by apply str_leb_total.
Qed.

(** [sorted] returns its argument rearranged. *)
Lemma sorted_perm (l : list str) : Permutation l (sorted l).
Proof.
  induction l as [|x l IH]; simpl; [done|].
  rewrite <- sorted_insert_perm. by apply perm_skip.
Qed.

(** [sorted] returns a list in increasing order. *)
Lemma sorted_sorted (l : list str) : StronglySorted str_le (sorted l).
Proof.
  apply Sorted_StronglySorted; [apply str_le_trans|].
  induction l as [|x l IH]; simpl; [constructor|].
  by apply sorted_insert_sorted.
Qed.

(** ** Dictionaries *)

Lemma dict_get_set_eq {V} (k : str) (v : V) (d : dict V) :
  dict_get k (dict_set k v d) = Some v.
Proof.
  induction d as [|[k' v'] d IH]; simpl.
  - by rewrite str_eqb_refl.
  - destruct (str_eqb_spec k k') as [->|Hne]; simpl.
    + by rewrite str_eqb_refl.
    + by rewrite (str_eqb_neq _ _ Hne).
Qed.

Lemma dict_get_set_ne {V} (k k' : str) (v : V) (d : dict V) :
  k <> k' -> dict_get k' (dict_set k v d) = dict_get k' d.
Proof.
  intros Hne. induction d as [|[k0 v0] d IH]; simpl.
  - by rewrite str_eqb_neq.
  - destruct (str_eqb_spec k k0) as [->|Hne0]; simpl; [|by rewrite IH].
    by rewrite str_eqb_neq.
Qed.

Lemma dict_get_None {V} (k : str) (d : dict V) :
  dict_get k d = None <-> ~ In k (dict_keys d).
Proof.
  induction d as [|[k' v'] d IH]; simpl; [tauto|].
  destruct (str_eqb_spec k k') as [->|Hne].
  - split; [done|]. intros H; exfalso; apply H; by left.
  - rewrite IH. split; [intros H [?|?]; [congruence|done] | tauto].
Qed.

Lemma dict_get_Some_In {V} (k : str) (v : V) (d : dict V) :
  dict_get k d = Some v -> In k (dict_keys d).
Proof.
  induction d as [|[k' v'] d IH]; simpl; [done|].
  destruct (str_eqb_spec k k') as [->|Hne]; [by left|].
  intros H. right. by apply IH.
Qed.

(** Assigning to a new key appends it. *)
Lemma dict_set_fresh {V} (k : str) (v : V) (d : dict V) :
  ~ In k (dict_keys d) -> dict_set k v d = d ++ [(k, v)].
Proof.
  induction d as [|[k' v'] d IH]; simpl; intros Hnot; [done|].
  rewrite str_eqb_neq by (intros ->; apply Hnot; by left).
  rewrite IH; [done|]. intros H; apply Hnot; by right.
Qed.

(** With distinct keys, a pair of the list is what [dict_get] finds. *)
Lemma dict_get_In_NoDup {V} (k : str) (v : V) (d : dict V) :
  List.NoDup (dict_keys d) -> In (k, v) d -> dict_get k d = Some v.
Proof.
  induction d as [|[k' v'] d IH]; simpl; intros Hnd Hin; [done|].
  apply NoDup_cons_iff in Hnd as [Hnot Hnd].
  destruct Hin as [Heq|Hin].
  - injection Heq as -> ->. by rewrite str_eqb_refl.
  - rewrite str_eqb_neq; [by apply IH|].
    intros ->. apply Hnot. by apply (in_map fst) in Hin.
Qed.

(* ===================================================================== *)
(** * Part IX.  Properties of the strategies                              *)
(* ===================================================================== *)

(** ** The registry holds the six strategies *)

Lemma registry_parsers (ext : str) (parser : Parser) :
  dict_get ext PARSERS = Some parser ->
  parser = parse_pdf \/ parser = parse_docx \/ parser = parse_xlsx
  \/ parser = parse_pptx \/ parser = parse_html \/ parser = parse_text.
Proof.
  unfold PARSERS. simpl dict_get.
  repeat match goal with
         | |- context [if ?c then _ else _] => destruct c
         end; intros [= <-]; tauto.
Qed.

(** From [H : parser L path w = Ok d], for one of the six strategies: the
    file was opened, the library returned a document, and [d] is the result
    of the walk; [d] is replaced by it. *)
Ltac strategy_returned H :=
  unfold parse_pdf, parse_docx, parse_xlsx, parse_pptx, parse_html, parse_text,
    open_read in H;
  cbv [mbind result_bind] in H;
  repeat match type of H with
         | match match ?found with Some _ => _ | None => _ end with
           | Ok _ => _ | Raise _ => _ end = _ =>
             destruct found; [|done]
         | match ?lib with Ok _ => _ | Raise _ => _ end = _ =>
             destruct lib; [|done]
         end;
  injection H as <-.

(** ** Text that is found reaches [full_text] *)

Lemma pdf_text_is_joined (doc : PdfDocument) :
  joined_has_text (PdfDoc (parse_pdf_document doc)) = true ->
  truthy (pdf_full_text (parse_pdf_document doc)) = true.
Proof.
  simpl. intros H. apply existsb_exists in H as (p & Hin & Hp).
  apply truthy_true.
  apply (str_join_nonempty _ _ (text p)).
  - apply in_map, filter_In. split; [done|]. by apply has_text_truthy.
  - apply truthy_true. by apply has_text_truthy.
Qed.

Lemma docx_text_is_joined (doc : DocxDocument) :
  joined_has_text (DocxDoc (parse_docx_document doc)) = true ->
  truthy (docx_full_text (parse_docx_document doc)) = true.
Proof.
  simpl. intros H. apply existsb_exists in H as (p & Hin & Hp).
  apply truthy_true. apply (str_join_nonempty _ _ p); [done|].
  apply truthy_true. by apply has_text_truthy.
Qed.

Lemma xlsx_text_is_joined (wb : Workbook) :
  joined_has_text (XlsxDoc (parse_xlsx_document wb)) = true ->
  truthy (xlsx_full_text (parse_xlsx_document wb)) = true.
Proof.
  simpl. intros H. apply existsb_exists in H as (item & Hin & _).
  apply truthy_true. apply (str_join_nonempty _ _ (sheet_text item)).
  - by apply in_map.
  - by destruct item.
Qed.

Lemma pptx_text_is_joined (prs : Presentation) :
  joined_has_text (PptxDoc (parse_pptx_document prs)) = true ->
  truthy (pptx_full_text (parse_pptx_document prs)) = true.
Proof.
  simpl. intros H. apply existsb_exists in H as (s & Hin & Hs).
  apply truthy_true. apply (str_join_nonempty _ _ (slide_block s)).
  - apply in_map, filter_In. split; [done|].
    by destruct (slide_text s).
  - done.
Qed.

(** C1, as the code has it.  Whenever an extraction succeeds and the pages,
    paragraphs, sheet rows or slide texts of its result hold text that is
    not whitespace, [full_text] is not empty.  The cells of a Word table are
    left out: they are not joined into [full_text]. *)
Theorem full_text_nonempty (L : Libraries) (ext : str) (parser : Parser)
    (path : str) (w : World) (d : ExtractedDocument) :
  dict_get ext PARSERS = Some parser ->
  parser L path w = Ok d ->
  joined_has_text d = true ->
  truthy (full_text d) = true.
Proof.
  intros Hreg Hrun. apply registry_parsers in Hreg.
  destruct Hreg as [-> | [-> | [-> | [-> | [-> | ->]]]]];
    strategy_returned Hrun.
  - apply pdf_text_is_joined.
  - apply docx_text_is_joined.
  - apply xlsx_text_is_joined.
  - apply pptx_text_is_joined.
  - apply has_text_truthy.
  - apply has_text_truthy.
Qed.

(** The theorem at a workbook uploaded as [book.xlsx]. *)
Lemma full_text_nonempty_witness :
  truthy (full_text (XlsxDoc (parse_xlsx_document sample_workbook))) = true.
Proof.
  apply (full_text_nonempty sample_libraries (u ".xlsx") parse_xlsx
           (u "/tmp/book.xlsx") (world_with (u "/tmp/book.xlsx") (b "PK"))).
  - reflexivity.
  - vm_compute. reflexivity.
  - vm_compute. reflexivity.
Defined.

(** C1 as stated fails: a Word document whose only text is in a table has
    text in its structured content and an empty [full_text]. *)
Lemma docx_table_only_full_text_empty :
  let d := DocxDoc (parse_docx_document sample_docx) in
  parse_docx sample_libraries (u "/tmp/t.docx")
    (world_with (u "/tmp/t.docx") (b "PK")) = Ok d
  /\ structured_has_text d = true
  /\ full_text d = [].
Proof. vm_compute. auto. Qed.

(* ===================================================================== *)
(** * Part X.  Properties of the coordinator                              *)
(* ===================================================================== *)

(** ** Release *)

(** C3, as the code has it.  [os.unlink] removes a file that is present,
    after which the file is absent and a second release raises; on a path
    whose file is already gone it raises [FileNotFoundError]. *)
Theorem release_once (path : str) (w : World) :
  match os_unlink path w with
  | Ok after =>
      is_Some (files w !! path)
      /\ files after !! path = None
      /\ os_unlink path after = Raise (FileNotFoundError path)
  | Raise e =>
      files w !! path = None /\ e = FileNotFoundError path
  end.
Proof.
  unfold os_unlink. destruct (files w !! path) as [data|] eqn:E; [|done].
  simpl. rewrite lookup_delete_eq. eauto.
Qed.

(** C3 as stated fails: releasing a resource a second time raises, and so
    does releasing a path that never had a file. *)
Lemma release_twice_raises :
  let path := u "/tmp/tmpq3x8k2_a.pdf" in
  let w := world_with path (b "%PDF") in
  os_unlink path w = Ok {| files := ∅; journal := [Unlinked path] |}
  /\ os_unlink path {| files := ∅; journal := [Unlinked path] |}
     = Raise (FileNotFoundError path)
  /\ os_unlink path empty_world = Raise (FileNotFoundError path).
Proof.
  cbv zeta. unfold os_unlink, world_with, empty_world. cbn [files journal].
  rewrite lookup_singleton_eq, delete_singleton_eq, lookup_empty. auto.
Qed.

(** ** The temporary file *)

(** C2.  When the extension is supported, the upload is written to a
    temporary file, the strategy runs on it, and the file is deleted
    whether the strategy returns or raises: a returned document is the
    response, an [Exception] becomes the status 500, any other exception
    leaves the handler as it is; in each case the temporary file is absent
    afterwards, every other file is as before, and the release itself does
    not raise. *)
Theorem temporary_file_released (L : Libraries) (upload_name : option str)
    (content : bytes) (elapsed : Z) (w : World) (parser : Parser) :
  resolve L (filename_or_default upload_name) = Some parser ->
  let filename := filename_or_default upload_name in
  let tmp_path := mkstemp_name L (files w) (extension L filename) in
  let during :=
    {| files := <[tmp_path := content]> (files w);
       journal := journal w ++ [Created tmp_path; Written tmp_path content] |} in
  exists after,
    parse_document L upload_name content elapsed w =
      (match parser L tmp_path during with
       | Ok d =>
           Ok {| document := d; filename := filename;
                 file_size := len content; processing_time := elapsed |}
       | Raise e =>
           Raise (if is_Exception e
                  then HTTPException 500 (failed_detail filename e)
                  else e)
       end, after)
    /\ files during !! tmp_path = Some content
    /\ files after !! tmp_path = None
    /\ (forall path, path <> tmp_path -> files after !! path = files w !! path)
    /\ journal after =
       journal w ++ [Created tmp_path; Written tmp_path content; Unlinked tmp_path].
Proof.
  intros Hres filename tmp_path during.
  unfold parse_document. fold filename. unfold resolve in Hres. fold filename in Hres.
  rewrite Hres. unfold NamedTemporaryFile, file_write, os_unlink, try_parse.
  cbn [files journal]. fold tmp_path.
  rewrite insert_insert_eq, lookup_insert_eq, <- app_assoc. simpl app.
  fold during.
  eexists. split; [|split; [|split; [|split]]].
  - destruct (parser L tmp_path during) as [d|e]; [done|].
    by destruct (is_Exception e).
  - apply lookup_insert_eq.
  - apply lookup_delete_eq.
  - intros path Hne. cbn [files].
    by rewrite lookup_delete_ne, lookup_insert_ne.
  - cbn [journal]. by rewrite <- app_assoc.
Qed.

(** The theorem at a PDF the library rejects: status 500, and the
    temporary file is gone. *)
Lemma temporary_file_released_witness :
  exists after,
    parse_document sample_libraries (Some (u "scan.pdf")) (b "%PDF-1") 7 empty_world =
      (Raise (HTTPException 500
                (u "Failed to parse scan.pdf: cannot open broken document")), after)
    /\ files after !! (u "/tmp/tmpq3x8k2_a.pdf") = None
    /\ journal after =
       [Created (u "/tmp/tmpq3x8k2_a.pdf");
        Written (u "/tmp/tmpq3x8k2_a.pdf") (b "%PDF-1");
        Unlinked (u "/tmp/tmpq3x8k2_a.pdf")].
Proof.
  destruct (temporary_file_released sample_libraries (Some (u "scan.pdf"))
              (b "%PDF-1") 7 empty_world parse_pdf eq_refl)
    as (after & Hout & _ & Hgone & _ & Hjournal).
  exists after. split; [|split].
  - rewrite Hout. f_equal.
  - exact Hgone.
  - exact Hjournal.
Defined.

(** ** Unsupported formats *)

Lemma supported_formats_value :
  supported_formats =
  [u ".csv"; u ".docx"; u ".htm"; u ".html"; u ".json"; u ".log"; u ".md";
   u ".pdf"; u ".pptx"; u ".txt"; u ".xlsx"; u ".xml"; u ".yaml"; u ".yml"].
Proof. reflexivity. Qed.

(** C5.  When the extension is not a key of the registry, the request ends
    with status 400; the detail holds the extension and then the registry's
    extensions, all of them, in increasing order; and the world is returned
    as it was received: no file was created and nothing was journalled. *)
Theorem unsupported_format_rejected (L : Libraries) (upload_name : option str)
    (content : bytes) (elapsed : Z) (w : World) :
  resolve L (filename_or_default upload_name) = None ->
  let ext := extension L (filename_or_default upload_name) in
  parse_document L upload_name content elapsed w =
    (Raise (HTTPException 400
              (u "Unsupported format: " ++ ext ++ u ". Supported: "
               ++ str_join (u ", ") supported_formats)), w)
  /\ str_join (u ", ") supported_formats =
     u ".csv, .docx, .htm, .html, .json, .log, .md, .pdf, .pptx, .txt, .xlsx, .xml, .yaml, .yml"
  /\ Permutation (dict_keys PARSERS) supported_formats
  /\ StronglySorted str_le supported_formats.
Proof.
  intros Hres ext. split; [|split; [|split]].
  - unfold parse_document. fold ext. unfold resolve in Hres. fold ext in Hres.
    by rewrite Hres.
  - reflexivity.
  - apply sorted_perm.
  - apply sorted_sorted.
Qed.

(** The theorem at [report.unknownext]. *)
Lemma unsupported_format_rejected_witness :
  parse_document sample_libraries (Some (u "report.unknownext")) (b "data") 0
    (world_with (u "/srv/keep.txt") (b "kept")) =
    (Raise (HTTPException 400
              (u "Unsupported format: .unknownext. Supported: .csv, .docx, .htm, .html, .json, .log, .md, .pdf, .pptx, .txt, .xlsx, .xml, .yaml, .yml")),
     world_with (u "/srv/keep.txt") (b "kept")).
Proof.
  exact (proj1 (unsupported_format_rejected sample_libraries
                  (Some (u "report.unknownext")) (b "data") 0
                  (world_with (u "/srv/keep.txt") (b "kept")) eq_refl)).
Defined.

(** ** A missing file name *)

(** C10.  An upload with no file name, or with an empty one, is handled as
    [document]; that name has no extension, so the request ends with the
    status 400 of an unsupported format and the world is returned as it was
    received. *)
Theorem missing_filename_rejected (L : Libraries) (upload_name : option str)
    (content : bytes) (elapsed : Z) (w : World) :
  upload_name = None \/ upload_name = Some [] ->
  filename_or_default upload_name = u "document"
  /\ extension L (u "document") = []
  /\ resolve L (u "document") = None
  /\ parse_document L upload_name content elapsed w =
     (Raise (HTTPException 400
               (u "Unsupported format: . Supported: .csv, .docx, .htm, .html, .json, .log, .md, .pdf, .pptx, .txt, .xlsx, .xml, .yaml, .yml")),
      w).
Proof.
  intros [-> | ->]; repeat split; reflexivity.
Qed.

(** The theorem at an upload without a name. *)
Lemma missing_filename_rejected_witness :
  parse_document sample_libraries None (b "Hello") 0 empty_world =
    (Raise (HTTPException 400
              (u "Unsupported format: . Supported: .csv, .docx, .htm, .html, .json, .log, .md, .pdf, .pptx, .txt, .xlsx, .xml, .yaml, .yml")),
     empty_world).
Proof.
  exact (proj2 (proj2 (proj2
    (missing_filename_rejected sample_libraries None (b "Hello") 0 empty_world
       (or_introl eq_refl))))).
Defined.

(* ===================================================================== *)
(** * Part XI.  Format resolution                                         *)
(* ===================================================================== *)

Lemma str_lower_ascii (unicode_lower : str -> str) (s : str) :
  forallb is_ascii s = true -> str_lower unicode_lower s = map ascii_lower_char s.
Proof. unfold str_lower. by intros ->. Qed.

(** The extension the coordinator sees for [base ++ "." ++ e]. *)
Lemma extension_spec (L : Libraries) (base e : str) :
  no_dot e = true ->
  extension L (base ++ extsep :: e) =
  if no_sep e && stem_ok base then str_lower (unicode_lower L) (extsep :: e) else [].
Proof.
  intros He. unfold extension. rewrite splitext_spec by done.
  by destruct (no_sep e && stem_ok base).
Qed.

(** A name without a dot resolves to nothing. *)
Lemma resolve_no_dot (L : Libraries) (name : str) :
  no_dot name = true -> resolve L name = None.
Proof.
  intros H. unfold resolve, extension.
  by rewrite splitext_no_dot by (by apply no_dot_spec).
Qed.

(** C4, as the code has it.  Take a name [base ++ "." ++ e] split at its
    final dot.  When [e] has no slash and the last path component of [base]
    has a character that is not a dot, the strategy is the registry's entry
    for the lower-cased [.e], whatever [base] is, and two such names whose
    lower-cased extensions agree resolve alike, so [A.PDF] resolves as
    [a.pdf].  Otherwise, as in [.pdf], whose final dot is a leading dot,
    the name has no extension and nothing is resolved; the same holds for a
    name without a dot. *)
Theorem resolve_by_extension (L : Libraries) (base e : str) :
  no_dot e = true ->
  resolve L (base ++ extsep :: e) =
    (if no_sep e && stem_ok base
     then dict_get (str_lower (unicode_lower L) (extsep :: e)) PARSERS
     else None)
  /\ (forallb is_ascii e = true ->
      str_lower (unicode_lower L) (extsep :: e) = extsep :: map ascii_lower_char e)
  /\ (forall base' e',
        no_dot e' = true ->
        no_sep e && stem_ok base = true -> no_sep e' && stem_ok base' = true ->
        str_lower (unicode_lower L) (extsep :: e)
        = str_lower (unicode_lower L) (extsep :: e') ->
        resolve L (base ++ extsep :: e) = resolve L (base' ++ extsep :: e'))
  /\ (forall name, no_dot name = true -> resolve L name = None)
  /\ resolve L (u "A.PDF") = resolve L (u "a.pdf")
  /\ resolve L (u "a.pdf") = Some parse_pdf
  /\ resolve L (u ".pdf") = None.
Proof.
  intros He. split; [|split; [|split; [|split]]].
  - unfold resolve. rewrite extension_spec by done.
    by destruct (no_sep e && stem_ok base).
  - intros Hascii. by rewrite str_lower_ascii by (simpl; by rewrite Hascii).
  - intros base' e' He' Hb Hb' Hlow. unfold resolve.
    rewrite !extension_spec by done. by rewrite Hb, Hb', Hlow.
  - apply resolve_no_dot.
  - repeat split; reflexivity.
Qed.

(** The theorem at [Report.v2.PDF]. *)
Lemma resolve_by_extension_witness :
  resolve sample_libraries (u "Report.v2.PDF") = Some parse_pdf.
Proof.
  exact (proj1 (resolve_by_extension sample_libraries (u "Report.v2") (u "PDF")
                  eq_refl)).
Defined.

(** C4 as stated fails: [.pdf] and [a.pdf] have the same text after their
    final dot, and only the second resolves to a strategy. *)
Lemma leading_dot_has_no_extension :
  text_after_final_dot sample_libraries (u ".pdf") = Some (u "pdf")
  /\ text_after_final_dot sample_libraries (u "a.pdf") = Some (u "pdf")
  /\ resolve sample_libraries (u "a.pdf") = Some parse_pdf
  /\ resolve sample_libraries (u ".pdf") = None.
Proof. repeat split; reflexivity. Qed.

(* ===================================================================== *)
(** * Part XII.  Plain text                                               *)
(* ===================================================================== *)

(** Text without a carriage return is read as it is. *)
Lemma universal_newlines_no_CR (s : str) :
  ~ In CR s -> universal_newlines s = s.
Proof.
  induction s as [|c s IH]; intros Hnot; [done|]. simpl.
  destruct (N.eqb_spec c CR) as [->|_].
  - exfalso; apply Hnot; by left.
  - rewrite IH; [done|]. intros H; apply Hnot; by right.
Qed.

(** What is read has no carriage return left. *)
Lemma universal_newlines_CR_free (s : str) : ~ In CR (universal_newlines s).
Proof.
  enough (H : ~ In CR (universal_newlines s)
              /\ forall c, ~ In CR (universal_newlines (c :: s))) by apply H.
  induction s as [|c' s [IH1 IH2]].
  - split; [simpl; tauto|]. intros c. simpl.
    destruct (N.eqb_spec c CR); simpl; unfold LF, CR in *; intros [?|[]]; lia.
  - split; [apply IH2|]. intros c.
    change (universal_newlines (c :: c' :: s)) with
      (if N.eqb c CR
       then if N.eqb c' LF then LF :: universal_newlines s
            else LF :: universal_newlines (c' :: s)
       else c :: universal_newlines (c' :: s)).
    destruct (N.eqb_spec c CR) as [->|Hc].
    + destruct (N.eqb c' LF); intros [Heq|Hin]; try discriminate Heq.
      * by apply IH1.
      * by apply (IH2 c').
    + intros [Heq|Hin]; [congruence | by apply (IH2 c')].
Qed.

(** ASCII bytes decode to themselves. *)
Lemma utf8_decode_ascii (data : bytes) :
  forallb (fun x => (Byte.to_N x <? 128)%N) data = true ->
  utf8_decode_replace data = map Byte.to_N data.
Proof.
  unfold utf8_decode_replace.
  induction data as [|x data IH]; [done|]. simpl.
  intros H. apply andb_true_iff in H as [Hx H].
  by rewrite Hx, IH.
Qed.

(** The decoder never returns more code points than it was given bytes. *)
Lemma utf8_decode_length (bs : list N) :
  (length (utf8_decode_N bs) <= length bs)%nat.
Proof.
  enough (H : forall n bs, (length bs <= n)%nat ->
                           (length (utf8_decode_N bs) <= length bs)%nat)
    by (by apply (H (length bs))).
  clear bs. induction n as [|n IH]; intros bs Hlen.
  - destruct bs; [done|simpl in Hlen; lia].
  - destruct bs as [|ch r1]; [done|]. cbn [length] in Hlen.
    cbn [utf8_decode_N].
    repeat match goal with
           | |- context [if ?c then _ else _] => destruct c
           | |- context [match ?l with [] => _ | _ :: _ => _ end] =>
               let x := fresh "ch" in let r := fresh "r" in
               destruct l as [|x r]
           end;
      cbn [length] in *;
      repeat match goal with
             | |- context [utf8_decode_N ?r] =>
                 lazymatch goal with
                 | _ : (length (utf8_decode_N r) <= length r)%nat |- _ => fail
                 | _ => assert (length (utf8_decode_N r) <= length r)%nat
                          by (apply IH; cbn [length] in *; lia)
                 end
             end;
      cbn [length] in *; lia.
Qed.

Lemma universal_newlines_length (s : str) :
  (length (universal_newlines s) <= length s)%nat.
Proof.
  enough (H : (length (universal_newlines s) <= length s)%nat
              /\ forall c, (length (universal_newlines (c :: s)) <= S (length s))%nat)
    by apply H.
  induction s as [|c' s [IH1 IH2]].
  - split; [done|]. intros c. simpl. by destruct (N.eqb c CR).
  - split; [apply IH2|]. intros c.
    change (universal_newlines (c :: c' :: s)) with
      (if N.eqb c CR
       then if N.eqb c' LF then LF :: universal_newlines s
            else LF :: universal_newlines (c' :: s)
       else c :: universal_newlines (c' :: s)).
    specialize (IH2 c').
    destruct (N.eqb c CR); [destruct (N.eqb c' LF)|]; simpl length in *; lia.
Qed.

(** The decoder on a three-byte sequence, an invalid start byte, a
    sequence broken by an ASCII byte, a sequence cut short by the end of
    the input, and an encoded surrogate. *)
Example utf8_decode_replace_examples :
  utf8_decode_replace [xe2; x82; xac] = [8364]%N
  /\ utf8_decode_replace [xff; x41] = [REPLACEMENT; 65]%N
  /\ utf8_decode_replace [xe2; x28; xa1] = [REPLACEMENT; 40; REPLACEMENT]%N
  /\ utf8_decode_replace [xf0; x90; x80] = [REPLACEMENT]
  /\ utf8_decode_replace [xed; xa0; x80] = [REPLACEMENT; REPLACEMENT; REPLACEMENT].
Proof. repeat split; reflexivity. Qed.

(** The text read from a file has at most as many characters as the file
    has bytes: [characters] is at most [file_size]. *)
Theorem text_characters_bounded (data : bytes) :
  text_characters (parse_text_content (read_text data)) <= len data
  /\ 1 <= text_lines (parse_text_content (read_text data)) <= len data + 1.
Proof.
  unfold parse_text_content, read_text, utf8_decode_replace, str_count, len.
  cbn [text_characters text_lines].
  pose proof (universal_newlines_length (utf8_decode_N (map Byte.to_N data))) as H1.
  pose proof (utf8_decode_length (map Byte.to_N data)) as H2.
  rewrite length_map in H2.
  pose proof (filter_length_le (N.eqb LF)
                (universal_newlines (utf8_decode_N (map Byte.to_N data)))) as H3.
  lia.
Qed.

(** C6, as the code has it.  The plain-text strategy decodes the bytes of
    the file as UTF-8 with replacement and reads them in text mode: every
    CRLF and every lone CR of the decoded text becomes one LF.  [full_text]
    is that text, [lines] its number of LF plus one, [characters] its
    length.  Decoded content without a carriage return is returned as it
    is; [notes.md] holding [Hello\nWorld] gives that text, 2 lines and 11
    characters. *)
Theorem parse_text_reads_in_text_mode (L : Libraries) (path : str) (w : World)
    (data : bytes) :
  files w !! path = Some data ->
  let decoded := utf8_decode_replace data in
  let text := universal_newlines decoded in
  parse_text L path w =
    Ok (TextDoc {| text_full_text := text;
                   text_lines := str_count LF text + 1;
                   text_characters := len text |})
  /\ ~ In CR text
  /\ (~ In CR decoded -> text = decoded)
  /\ (forall elapsed w0,
        fst (parse_document L (Some (u "notes.md"))
               (b "Hello" ++ [x0a] ++ b "World") elapsed w0) =
        Ok {| document :=
                TextDoc {| text_full_text := u "Hello" ++ [LF] ++ u "World";
                           text_lines := 2;
                           text_characters := 11 |};
              filename := u "notes.md";
              file_size := 11;
              processing_time := elapsed |}).
Proof.
  intros Hfile decoded text. split; [|split; [|split]].
  - unfold parse_text, open_read. by rewrite Hfile.
  - apply universal_newlines_CR_free.
  - apply universal_newlines_no_CR.
  - intros elapsed w0. unfold parse_document.
    change (dict_get _ PARSERS) with (Some parse_text).
    unfold NamedTemporaryFile, file_write, os_unlink, try_parse, parse_text, open_read.
    cbn [files journal]. by rewrite !lookup_insert_eq.
Qed.

(** The theorem at the temporary copy of [notes.md]. *)
Lemma parse_text_reads_in_text_mode_witness :
  parse_text sample_libraries (u "/tmp/tmpq3x8k2_a.md")
    (world_with (u "/tmp/tmpq3x8k2_a.md") (b "Hello" ++ [x0a] ++ b "World")) =
  Ok (TextDoc {| text_full_text := u "Hello" ++ [LF] ++ u "World";
                 text_lines := 2;
                 text_characters := 11 |}).
Proof.
  exact (proj1 (parse_text_reads_in_text_mode sample_libraries
                  (u "/tmp/tmpq3x8k2_a.md")
                  (world_with (u "/tmp/tmpq3x8k2_a.md")
                     (b "Hello" ++ [x0a] ++ b "World"))
                  (b "Hello" ++ [x0a] ++ b "World")
                  (lookup_singleton_eq _ _))).
Defined.

(** C6 as stated fails: a file holding [a\r\nb] decodes to four code
    points, and [full_text] has three. *)
Lemma crlf_is_not_verbatim :
  let data := b "a" ++ [x0d; x0a] ++ b "b" in
  let path := u "/tmp/tmpq3x8k2_a.txt" in
  utf8_decode_replace data = [97; 13; 10; 98]%N
  /\ parse_text sample_libraries path (world_with path data) =
     Ok (TextDoc {| text_full_text := [97; 10; 98]%N;
                    text_lines := 2;
                    text_characters := 3 |}).
Proof.
  cbv zeta. split; [reflexivity|].
  unfold parse_text, open_read, world_with. cbn [files].
  by rewrite lookup_singleton_eq.
Qed.

(* ===================================================================== *)
(** * Part XIII.  Spreadsheets                                            *)
(* ===================================================================== *)

(** What the loop over the sheet names leaves in [sheets]. *)
Lemma collect_sheets_get (wb : Workbook) (names : list str)
    (sheets : dict (list (list str))) (name : str) :
  dict_get name (collect_sheets wb names sheets) =
  if existsb (str_eqb name) names
  then Some (sheet_rows (wb_getitem wb name))
  else dict_get name sheets.
Proof.
  revert sheets; induction names as [|n names IH]; intros sheets; [done|].
  simpl. rewrite IH.
  destruct (existsb (str_eqb name) names); [by rewrite orb_true_r|].
  rewrite orb_false_r.
  destruct (str_eqb_spec name n) as [->|Hne].
  - apply dict_get_set_eq.
  - apply dict_get_set_ne. congruence.
Qed.

(** With distinct names, the sheets are appended in the order of the
    names. *)
Lemma collect_sheets_distinct (wb : Workbook) (names : list str)
    (sheets : dict (list (list str))) :
  List.NoDup names ->
  (forall n, In n names -> ~ In n (dict_keys sheets)) ->
  collect_sheets wb names sheets =
  sheets ++ map (fun n => (n, sheet_rows (wb_getitem wb n))) names.
Proof.
  revert sheets; induction names as [|n names IH]; intros sheets Hnd Hfresh.
  - simpl. by rewrite app_nil_r.
  - apply NoDup_cons_iff in Hnd as [Hn Hnd]. simpl.
    rewrite dict_set_fresh by (apply Hfresh; by left).
    rewrite IH; [by rewrite <- app_assoc|done|].
    intros m Hm. unfold dict_keys. rewrite map_app, in_app_iff.
    intros [Hin|[<-|[]]]; [|done].
    by apply (Hfresh m); [right|].
Qed.

(** A row is kept when one of its cells has text, and dropped when the
    trimmed value of every cell is empty. *)
Lemma sheet_rows_filter (ws : list (list Cell)) :
  sheet_rows ws =
  List.filter (fun row => negb (forallb (fun c => str_eqb (strip c) []) row))
              (map (map cell_str) ws).
Proof.
  unfold sheet_rows. apply filter_ext. intros row.
  induction row as [|c row IH]; [done|]. simpl. rewrite IH.
  rewrite negb_andb. f_equal. by destruct (strip c).
Qed.

(** The decimal numeral of an integer has text. *)
Lemma has_text_str_of_int (n : Z) : has_text (str_of_int n) = true.
Proof.
  unfold str_of_int. destruct n as [|p|p]; [done| |done].
  unfold Z.to_int, NilZero.string_of_int, NilZero.string_of_uint.
  by destruct (Pos.to_uint p).
Qed.

(** A row with a cell that has text is kept. *)
Lemma sheet_rows_keeps (ws : list (list Cell)) (row : list Cell) (c : Cell) :
  In row ws -> In c row -> has_text (cell_str c) = true ->
  In (map cell_str row) (sheet_rows ws).
Proof.
  intros Hrow Hc Ht. unfold sheet_rows. apply filter_In. split; [by apply in_map|].
  apply existsb_exists. exists (cell_str c). split; [by apply in_map|].
  by rewrite truthy_strip.
Qed.

(** C7.  For every sheet of the workbook, the result maps the sheet's name
    to its rows, each cell converted to its string form, without the rows
    in which the trimmed value of every cell is empty and with all the
    others in their order; the name is there even when no row is left.
    The string form of a cell is the empty string for an absent cell, the
    string itself for a string, the decimal numeral for an integer, [True]
    or [False] for a boolean, and the printed text for any other value; so
    a row that holds a number or a boolean is never dropped.  With
    distinct sheet names the mapping lists the sheets in the workbook's
    order.  The sheet with rows [[a, b], [, ], [c, d]] keeps [[a, b],
    [c, d]]; the sheet with rows [[42, True, None, 3.5], [None, "  "],
    [0, None], [-7, False]] keeps [[42, True, , 3.5], [0, ], [-7, False]]
    as strings. *)
Theorem xlsx_rows_kept (wb : Workbook) (name : str) :
  In name (sheetnames wb) ->
  let r := parse_xlsx_document wb in
  let str_rows := map (map cell_str) (wb_getitem wb name) in
  dict_get name (xlsx_data r) =
    Some (List.filter
            (fun row => negb (forallb (fun c => str_eqb (strip c) []) row))
            str_rows)
  /\ (forall row, In row str_rows ->
        (In row (sheet_rows (wb_getitem wb name))
         <-> exists c, In c row /\ strip c <> []))
  /\ In name (xlsx_sheets r)
  /\ cell_str CellNone = []
  /\ (List.NoDup (sheetnames wb) ->
      xlsx_data r = map (fun '(n, ws) => (n, sheet_rows ws)) wb)
  /\ xlsx_data (parse_xlsx_document sample_workbook) =
     [(u "Sheet1", [[u "a"; u "b"]; [u "c"; u "d"]])]
  /\ xlsx_data (parse_xlsx_document [(u "Blank", [[CellNone; CellStr (u " ")]])]) =
     [(u "Blank", [])]
  /\ (forall c,
        cell_str c =
        match c with
        | CellNone => []
        | CellStr s => s
        | CellInt n => u (NilZero.string_of_int (Z.to_int n))
        | CellBool true => u "True"
        | CellBool false => u "False"
        | CellOther printed => printed
        end)
  /\ (forall row c,
        In row (wb_getitem wb name) -> In c row ->
        (exists n, c = CellInt n) \/ (exists v, c = CellBool v)
        \/ has_text (cell_str c) = true ->
        exists rows,
          dict_get name (xlsx_data r) = Some rows /\ In (map cell_str row) rows)
  /\ xlsx_data
       (parse_xlsx_document
          [(u "Data",
            [[CellInt 42; CellBool true; CellNone; CellOther (u "3.5")];
             [CellNone; CellStr (u "  ")];
             [CellInt 0; CellNone];
             [CellInt (-7); CellBool false]])]) =
     [(u "Data",
       [[u "42"; u "True"; []; u "3.5"];
        [u "0"; []];
        [u "-7"; u "False"]])].
Proof.
  intros Hin r str_rows.
  assert (Hget : dict_get name (xlsx_data r) = Some (sheet_rows (wb_getitem wb name))).
  { unfold r, parse_xlsx_document. cbn [xlsx_data].
    rewrite collect_sheets_get.
    assert (Hex : existsb (str_eqb name) (sheetnames wb) = true).
    { apply existsb_exists. exists name. by rewrite str_eqb_refl. }
    by rewrite Hex. }
  split; [|split; [|split; [|split; [|split; [|split; [|split;
    [|split; [|split]]]]]]]].
  - by rewrite Hget, sheet_rows_filter.
  - intros row Hrow. unfold sheet_rows. rewrite filter_In. fold str_rows.
    split.
    + intros [_ Hex]. apply existsb_exists in Hex as (c & Hc & Ht).
      exists c. split; [done|]. by apply truthy_true.
    + intros (c & Hc & Ht). split; [done|].
      apply existsb_exists. exists c. split; [done|]. by apply truthy_true.
  - unfold r, parse_xlsx_document in *. cbn [xlsx_data xlsx_sheets] in *.
    by apply dict_get_Some_In in Hget.
  - done.
  - intros Hnd. unfold r, parse_xlsx_document. cbn [xlsx_data].
    rewrite collect_sheets_distinct by (done || (intros ? _ [])).
    simpl app. unfold sheetnames. rewrite map_map.
    apply map_ext_in. intros [n ws] Hnws. simpl. f_equal. f_equal.
    unfold wb_getitem. by rewrite (dict_get_In_NoDup n ws wb Hnd Hnws).
  - reflexivity.
  - reflexivity.
  - by intros [| | |[|]|].
  - intros row c Hrow Hc Hkind.
    exists (sheet_rows (wb_getitem wb name)). split; [done|].
    apply (sheet_rows_keeps _ row c); [done|done|].
    destruct Hkind as [[n ->]|[[v ->]|Ht]]; [|by destruct v|done].
    apply has_text_str_of_int.
  - reflexivity.
Qed.

(** The theorem at a sheet with numbers, booleans, an absent cell and a
    blank row. *)
Lemma xlsx_rows_kept_witness :
  dict_get (u "Data")
    (xlsx_data
       (parse_xlsx_document
          [(u "Data",
            [[CellInt 42; CellBool true; CellNone; CellOther (u "3.5")];
             [CellNone; CellStr (u "  ")];
             [CellInt 0; CellNone];
             [CellInt (-7); CellBool false]])])) =
  Some [[u "42"; u "True"; []; u "3.5"]; [u "0"; []]; [u "-7"; u "False"]].
Proof.
  exact (proj1 (xlsx_rows_kept
                  [(u "Data",
                    [[CellInt 42; CellBool true; CellNone; CellOther (u "3.5")];
                     [CellNone; CellStr (u "  ")];
                     [CellInt 0; CellNone];
                     [CellInt (-7); CellBool false]])]
                  (u "Data") (or_introl eq_refl))).
Defined.

(* ===================================================================== *)
(** * Part XIV.  Word documents                                           *)
(* ===================================================================== *)

Lemma filter_has_text (l : list str) :
  List.filter (fun p => truthy (strip p)) l = List.filter has_text l.
Proof. apply filter_ext. intros p. apply truthy_strip. Qed.

(** The tables keep their shape: a cell is where it was, trimmed. *)
Lemma cell_at_strip (ts : list (list (list str))) (i j k : nat) :
  cell_at (map (fun table => map (fun row => map strip row) table) ts) i j k =
  option_map strip (cell_at ts i j k).
Proof.
  unfold cell_at. rewrite nth_error_map.
  destruct (nth_error ts i) as [table|]; [simpl|done].
  rewrite nth_error_map.
  destruct (nth_error table j) as [row|]; [simpl|done].
  apply nth_error_map.
Qed.

(** C8.  The paragraph list of the result holds the paragraphs whose
    trimmed text is not empty, in their order and untrimmed, and
    [full_text] joins that list: a paragraph made of whitespace is in
    neither, and the result is the one of the document without it.  The
    table data keeps every table, row and cell in place, each cell trimmed,
    the empty ones included: in the table [[x, y], [, z]] the cell at row 2,
    position 1 is the empty string. *)
Theorem docx_paragraphs_and_tables (doc : DocxDocument) :
  let r := parse_docx_document doc in
  docx_content r = List.filter has_text (paragraphs doc)
  /\ (forall p, In p (docx_content r) <-> In p (paragraphs doc) /\ strip p <> [])
  /\ docx_full_text r = str_join [LF; LF] (List.filter has_text (paragraphs doc))
  /\ (forall before blank after,
        has_text blank = false ->
        paragraphs doc = before ++ blank :: after ->
        ~ In blank (docx_content r)
        /\ r = parse_docx_document
                 {| paragraphs := before ++ after; tables := tables doc |})
  /\ (forall i j k,
        cell_at (docx_table_data r) i j k = option_map strip (cell_at (tables doc) i j k))
  /\ length (docx_table_data r) = length (tables doc)
  /\ docx_table_data (parse_docx_document sample_docx) =
     [[[u "x"; u "y"]; [[]; u "z"]]]
  /\ cell_at (docx_table_data (parse_docx_document sample_docx)) 0 1 0 = Some []
  /\ docx_content (parse_docx_document sample_docx) = []
  /\ docx_full_text (parse_docx_document sample_docx) = [].
Proof.
  intros r. unfold r, parse_docx_document. cbn [docx_content docx_full_text docx_table_data].
  rewrite filter_has_text.
  split; [done|]. split; [|split; [done|]; split; [|split; [|split]]].
  - intros p. rewrite filter_In, <- truthy_true, truthy_strip. tauto.
  - intros before blank after Hblank Hpars. split.
    + rewrite filter_In. intros [_ H]. congruence.
    + rewrite Hpars. cbn [paragraphs tables].
      rewrite !filter_has_text, !List.filter_app. simpl List.filter.
      by rewrite Hblank.
  - intros i j k. apply cell_at_strip.
  - by rewrite length_map.
  - repeat split; reflexivity.
Qed.

(* ===================================================================== *)
(** * Part XV.  HTML                                                      *)
(* ===================================================================== *)

(** Without a [title] element the title is the empty string. *)
Lemma html_title_absent (soup : Soup) :
  soup_find (u "title") (flat_map (decompose_all [u "script"; u "style"]) soup) = None ->
  html_title (parse_html_soup soup) = Some [].
Proof. unfold parse_html_soup. cbn [html_title]. by intros ->. Qed.

(** A [title] element that holds one string gives that string. *)
Lemma html_title_single_string (soup : Soup) (s : str) :
  soup_find (u "title") (flat_map (decompose_all [u "script"; u "style"]) soup)
  = Some [NavigableString s] ->
  html_title (parse_html_soup soup) = Some s.
Proof. unfold parse_html_soup. cbn [html_title]. by intros ->. Qed.

(** A [title] element with no child gives [None], not a string. *)
Lemma html_title_empty_element (soup : Soup) :
  soup_find (u "title") (flat_map (decompose_all [u "script"; u "style"]) soup)
  = Some [] ->
  html_title (parse_html_soup soup) = None.
Proof. unfold parse_html_soup. cbn [html_title]. by intros ->. Qed.

(** C9 fails on the code.  For the page
    [<html><head><title></title></head><body><p>x</p></body></html>] the
    strategy returns the title [None]: the [title] element is there, so the
    fallback to the empty string is not taken, and its [string] is [None]. *)
Theorem empty_title_is_None :
  parse_html_soup sample_soup = {| html_title := None; html_full_text := u "x" |}
  /\ parse_html sample_libraries (u "/tmp/tmpq3x8k2_a.html")
       (world_with (u "/tmp/tmpq3x8k2_a.html")
          (b "<html><head><title></title></head><body><p>x</p></body></html>")) =
     Ok (HtmlDoc {| html_title := None; html_full_text := u "x" |}).
Proof.
  split; [reflexivity|].
  unfold parse_html, open_read, world_with. cbn [files].
  by rewrite lookup_singleton_eq.
Qed.

(* ===================================================================== *)
(** * Part XVI.  Pages and slides                                         *)
(* ===================================================================== *)

Lemma enumerate_from_snd {A} (i : Z) (l : list A) :
  map snd (enumerate_from i l) = l.
Proof.
  revert i; induction l as [|x l IH]; intros i; simpl; [done|]. by rewrite IH.
Qed.

Lemma enumerate_from_length {A} (i : Z) (l : list A) :
  length (enumerate_from i l) = length l.
Proof.
  revert i; induction l as [|x l IH]; intros i; simpl; [done|]. by rewrite IH.
Qed.

Lemma enumerate_from_fst {A} (i : Z) (l : list A) :
  map fst (enumerate_from i l) =
  map (fun k => i + Z.of_nat k) (seq 0 (length l)).
Proof.
  revert i; induction l as [|x l IH]; intros i; simpl; [done|].
  rewrite IH, <- seq_shift, map_map. f_equal; [lia|].
  apply map_ext. intros k. lia.
Qed.

Lemma map_filter_comm {A B} (f : A -> B) (keep : B -> bool) (l : list A) :
  map f (List.filter (fun x => keep (f x)) l) = List.filter keep (map f l).
Proof.
  induction l as [|x l IH]; simpl; [done|].
  destruct (keep (f x)); simpl; by rewrite IH.
Qed.

(** Every page of a PDF is listed, numbered from 1, with its trimmed text,
    blank pages included; [full_text] joins the texts of the pages that
    have text, so a blank page adds nothing to it. *)
Theorem pdf_pages_listed (doc : PdfDocument) :
  let r := parse_pdf_document doc in
  pdf_pages r = len (page_texts doc)
  /\ map text (pdf_content r) = map strip (page_texts doc)
  /\ map page (pdf_content r) =
     map (fun k => Z.of_nat k + 1) (seq 0 (length (page_texts doc)))
  /\ pdf_full_text r =
     str_join [LF; LF] (map strip (List.filter has_text (page_texts doc)))
  /\ parse_pdf_document
       {| page_texts := [u "Intro "; u "   "; u " End"]; metadata := None |} =
     {| pdf_pages := 3;
        pdf_metadata := [];
        pdf_content := [ {| page := 1; text := u "Intro" |};
                         {| page := 2; text := [] |};
                         {| page := 3; text := u "End" |} ];
        pdf_full_text := u "Intro" ++ [LF; LF] ++ u "End" |}.
Proof.
  intros r. unfold r, parse_pdf_document.
  cbn [pdf_pages pdf_content pdf_full_text].
  set (numbered := enumerate_from 0 (page_texts doc)).
  assert (Htext : map text
                    (map (fun '(i, t) => {| page := i + 1; text := strip t |}) numbered)
                  = map strip (page_texts doc)).
  { rewrite map_map, <- (enumerate_from_snd 0 (page_texts doc)), map_map.
    apply map_ext. by intros [i t]. }
  split; [|split; [done|split; [|split]]].
  - unfold len, numbered. by rewrite length_map, enumerate_from_length.
  - rewrite map_map.
    transitivity (map (fun k => k + 1) (map fst numbered)).
    + rewrite map_map. apply map_ext. by intros [i t].
    + unfold numbered. rewrite enumerate_from_fst, map_map.
      apply map_ext. intros k. lia.
  - f_equal.
    rewrite (map_filter_comm text truthy), Htext.
    rewrite <- (map_filter_comm strip truthy).
    f_equal. apply filter_ext. intros t. apply truthy_strip.
  - reflexivity.
Qed.

(** The texts appended for one shape: the paragraphs with text, trimmed. *)
Lemma shape_texts_eq (shape : Shape) :
  shape_texts shape =
  match text_frame shape with
  | Some paras => map strip (List.filter has_text paras)
  | None => []
  end.
Proof.
  unfold shape_texts. destruct (text_frame shape) as [paras|]; [|done].
  rewrite <- (map_filter_comm strip truthy).
  f_equal. apply filter_ext. intros para. apply truthy_strip.
Qed.

(** Every slide of a presentation is listed, numbered from 1.  The texts of
    a slide are, for each of its shapes in order, none when the shape has
    no text frame and otherwise the paragraphs of the frame that have text,
    in order and trimmed.  [full_text] has, for each slide with a text and
    in order, the line [--- Slide n ---] and the texts of the slide, one
    per line, the blocks separated by a blank line; a slide without text is
    listed and has no block. *)
Theorem pptx_slides_listed (prs : Presentation) :
  let r := parse_pptx_document prs in
  pptx_slides r = len prs
  /\ map slide_text (pptx_content r) =
     map (fun shapes =>
            flat_map (fun shape =>
                        match text_frame shape with
                        | Some paras => map strip (List.filter has_text paras)
                        | None => []
                        end) shapes) prs
  /\ map slide (pptx_content r) = map (fun k => Z.of_nat k + 1) (seq 0 (length prs))
  /\ pptx_full_text r =
     str_join [LF; LF]
       (map (fun s =>
               u "--- Slide " ++ u (NilZero.string_of_int (Z.to_int (slide s)))
               ++ u " ---" ++ [LF] ++ str_join [LF] (slide_text s))
          (List.filter (fun s => match slide_text s with [] => false | _ => true end)
             (pptx_content r)))
  /\ (forall s t, In s (pptx_content r) -> In t (slide_text s) -> t <> [])
  /\ parse_pptx_document
       [ [ {| text_frame := Some [u " Title "; u "  "] |}; {| text_frame := None |} ];
         [ {| text_frame := None |} ] ] =
     {| pptx_slides := 2;
        pptx_content := [ {| slide := 1; slide_text := [u "Title"] |};
                          {| slide := 2; slide_text := [] |} ];
        pptx_full_text := u "--- Slide 1 ---" ++ [LF] ++ u "Title" |}
  /\ parse_pptx_document
       [ [ {| text_frame := Some [u " Title "; u "  "] |};
           {| text_frame := None |};
           {| text_frame := Some [u "Body "; u "More"] |} ];
         [ {| text_frame := None |}; {| text_frame := Some [u "  "] |} ];
         [ {| text_frame := Some [u "End"] |} ] ] =
     {| pptx_slides := 3;
        pptx_content := [ {| slide := 1; slide_text := [u "Title"; u "Body"; u "More"] |};
                          {| slide := 2; slide_text := [] |};
                          {| slide := 3; slide_text := [u "End"] |} ];
        pptx_full_text :=
          u "--- Slide 1 ---" ++ [LF] ++ u "Title" ++ [LF] ++ u "Body" ++ [LF]
          ++ u "More" ++ [LF; LF] ++ u "--- Slide 3 ---" ++ [LF] ++ u "End" |}.
Proof.
  intros r. unfold r, parse_pptx_document.
  cbn [pptx_slides pptx_content pptx_full_text].
  set (numbered := enumerate_from 0 prs).
  split; [|split; [|split; [|split; [|split; [|split]]]]].
  - unfold len, numbered. by rewrite length_map, enumerate_from_length.
  - rewrite map_map, <- (enumerate_from_snd 0 prs) at 1.
    rewrite map_map. apply map_ext. intros [i shapes]. cbn [slide_text snd].
    unfold slide_texts. apply flat_map_ext. intros shape. apply shape_texts_eq.
  - rewrite map_map.
    transitivity (map (fun k => k + 1) (map fst numbered)).
    + rewrite map_map. apply map_ext. by intros [i t].
    + unfold numbered. rewrite enumerate_from_fst, map_map.
      apply map_ext. intros k. lia.
  - f_equal. apply map_ext. intros s. unfold slide_block, str_of_int.
    by rewrite <- !app_assoc.
  - intros s t Hs Ht. apply in_map_iff in Hs as ([i shapes] & <- & _).
    cbn [slide_text] in Ht. unfold slide_texts in Ht.
    apply in_flat_map in Ht as (shape & _ & Ht). unfold shape_texts in Ht.
    destruct (text_frame shape); [|done].
    apply filter_In in Ht as [_ Ht]. by apply truthy_true.
  - reflexivity.
  - reflexivity.
Qed.

(* ===================================================================== *)
(** * Part XVII.  Trimmed text and its place in [full_text]               *)
(* ===================================================================== *)

(** ** What [strip] leaves at the ends *)

Lemma lstrip_starts_clean (s : str) : starts_clean (lstrip s) = true.
Proof.
  induction s as [|c s IH]; [done|]. simpl.
  destruct (is_whitespace c) eqn:E; [done|]. simpl. by rewrite E.
Qed.

Lemma lstrip_fixed (s : str) : starts_clean s = true -> lstrip s = s.
Proof. destruct s as [|c s]; simpl; [done|]. by destruct (is_whitespace c). Qed.

(** [lstrip] removes a run of whitespace and nothing else. *)
Lemma lstrip_split (s : str) :
  exists ws, s = ws ++ lstrip s /\ forallb is_whitespace ws = true.
Proof.
  induction s as [|c s (ws & Hs & Hws)]; [by exists []|]. simpl.
  destruct (is_whitespace c) eqn:E.
  - exists (c :: ws). simpl. rewrite E, Hws. split; [by f_equal|done].
  - by exists [].
Qed.

Lemma starts_clean_app (s t : str) :
  s <> [] -> starts_clean (s ++ t) = starts_clean s.
Proof. by destruct s. Qed.

Lemma rev_nil_iff {A} (l : list A) : rev l = [] <-> l = [].
Proof.
  split; [|by intros ->]. intros H.
  apply (f_equal (@rev A)) in H. by rewrite rev_involutive in H.
Qed.

(** The trimmed text has no whitespace at either end. *)
Lemma strip_clean_ends (s : str) : clean_ends (strip s) = true.
Proof.
  unfold clean_ends, strip, rstrip. rewrite rev_involutive.
  rewrite lstrip_starts_clean, andb_true_r.
  destruct (lstrip_split (rev (lstrip s))) as (ws & Hsplit & _).
  set (kept := lstrip (rev (lstrip s))) in *.
  destruct kept as [|c kept'] eqn:E; [done|].
  apply (f_equal (@rev N)) in Hsplit.
  rewrite rev_involutive, rev_app_distr in Hsplit.
  rewrite <- (starts_clean_app _ (rev ws)) by (by rewrite rev_nil_iff).
  rewrite <- Hsplit. apply lstrip_starts_clean.
Qed.

(** Text with no whitespace at either end is left as it is. *)
Lemma clean_ends_strip (s : str) : clean_ends s = true -> strip s = s.
Proof.
  unfold clean_ends, strip, rstrip. intros H.
  apply andb_true_iff in H as [H1 H2].
  by rewrite (lstrip_fixed s), (lstrip_fixed (rev s)), rev_involutive.
Qed.

(** Trimming twice is trimming once. *)
Lemma strip_idempotent (s : str) : strip (strip s) = strip s.
Proof. apply clean_ends_strip, strip_clean_ends. Qed.

(** Joining non-empty trimmed parts gives a trimmed text. *)
Lemma str_join_clean_ends (sep : str) (parts : list str) :
  Forall (fun p => p <> [] /\ clean_ends p = true) parts ->
  clean_ends (str_join sep parts) = true.
Proof.
  induction 1 as [|p rest [Hp Hclean] Hrest IH]; [done|].
  rewrite str_join_cons. destruct rest as [|q rest']; [done|].
  assert (Hjoin : str_join sep (q :: rest') <> []).
  { apply (str_join_nonempty _ _ q); [by left|].
    by apply Forall_inv in Hrest as [? _]. }
  unfold clean_ends in *.
  apply andb_true_iff in Hclean as [Hhead _].
  apply andb_true_iff in IH as [_ Hlast].
  rewrite starts_clean_app, Hhead by done. simpl andb.
  rewrite !rev_app_distr, <- app_assoc.
  by rewrite starts_clean_app by (by rewrite rev_nil_iff).
Qed.

(** ** Where a part is in a join *)

Lemma occurs_in_refl (s : str) : occurs_in s s.
Proof. exists [], []. by rewrite app_nil_r. Qed.

Lemma occurs_in_trans (r s t : str) :
  occurs_in r s -> occurs_in s t -> occurs_in r t.
Proof.
  intros (a & c & ->) (a' & c' & ->).
  exists (a' ++ a), (c ++ c'). by rewrite <- !app_assoc.
Qed.

Lemma occurs_in_app_l (s t x : str) : occurs_in s t -> occurs_in s (x ++ t).
Proof. intros (a & c & ->). exists (x ++ a), c. by rewrite <- app_assoc. Qed.

Lemma occurs_in_app_r (s t x : str) : occurs_in s t -> occurs_in s (t ++ x).
Proof. intros (a & c & ->). exists a, (c ++ x). by rewrite <- !app_assoc. Qed.

(** Every part occurs in the join. *)
Lemma occurs_in_join (sep : str) (parts : list str) (p : str) :
  In p parts -> occurs_in p (str_join sep parts).
Proof.
  induction parts as [|q rest IH]; [done|].
  rewrite str_join_cons. intros [->|Hin].
  - destruct rest; [apply occurs_in_refl|].
    apply occurs_in_app_r, occurs_in_refl.
  - destruct rest as [|r rest']; [done|].
    by apply occurs_in_app_l, occurs_in_app_l, IH.
Qed.

Lemma occurs_in_nil (t : str) : occurs_in [] t.
Proof. by exists [], t. Qed.

(** A join of non-empty parts is empty only when there is no part. *)
Lemma str_join_empty_iff (sep : str) (parts : list str) :
  Forall (fun p => p <> []) parts ->
  str_join sep parts = [] <-> parts = [].
Proof.
  intros Hparts. split; [|by intros ->].
  destruct parts as [|p rest]; [done|]. intros Hjoin. exfalso.
  apply (str_join_nonempty sep (p :: rest) p); [by left| |done].
  by apply Forall_inv in Hparts.
Qed.

(** ** PDF *)

(** The texts joined into [full_text], in terms of the pages of the
    document. *)
Lemma pdf_joined_texts (i : Z) (texts : list str) :
  map text
    (List.filter (fun p => truthy (text p))
       (map (fun '(i, t) => {| page := i + 1; text := strip t |})
          (enumerate_from i texts)))
  = map strip (List.filter has_text texts).
Proof.
  revert i; induction texts as [|t texts IH]; intros i; [done|].
  simpl. rewrite truthy_strip.
  destruct (has_text t); simpl; by rewrite IH.
Qed.

Lemma pdf_full_text_eq (doc : PdfDocument) :
  pdf_full_text (parse_pdf_document doc) =
  str_join [LF; LF] (map strip (List.filter has_text (page_texts doc))).
Proof.
  unfold parse_pdf_document. cbn [pdf_full_text]. by rewrite pdf_joined_texts.
Qed.

(** The page texts of a PDF result and its [full_text] have no whitespace
    at either end, the text of every page occurs in [full_text], and
    [full_text] is empty exactly when no page has text. *)
Theorem pdf_text_trimmed_and_found (doc : PdfDocument) :
  let r := parse_pdf_document doc in
  (forall p, In p (pdf_content r) -> strip (text p) = text p)
  /\ strip (pdf_full_text r) = pdf_full_text r
  /\ (forall p, In p (pdf_content r) -> occurs_in (text p) (pdf_full_text r))
  /\ (pdf_full_text r = [] <-> forall t, In t (page_texts doc) -> has_text t = false).
Proof.
  intros r.
  assert (Hpage : forall p, In p (pdf_content r) ->
                    exists t, In t (page_texts doc) /\ text p = strip t).
  { intros p Hp. apply in_map_iff in Hp as ([i t] & <- & Hin).
    exists t. split; [|done].
    rewrite <- (enumerate_from_snd 0 (page_texts doc)).
    by apply (in_map snd) in Hin. }
  split; [|split; [|split]].
  - intros p Hp. destruct (Hpage p Hp) as (t & _ & ->). apply strip_idempotent.
  - apply clean_ends_strip, str_join_clean_ends, List.Forall_forall.
    intros x Hx. apply in_map_iff in Hx as (p & <- & Hp).
    apply filter_In in Hp as [Hp Htruthy].
    split; [by apply truthy_true|].
    destruct (Hpage p Hp) as (t & _ & ->). apply strip_clean_ends.
  - intros p Hp. destruct (truthy (text p)) eqn:E.
    + apply occurs_in_join, in_map, filter_In. by split.
    + destruct (text p); [apply occurs_in_nil|done].
  - unfold r. rewrite pdf_full_text_eq, str_join_empty_iff.
    + split.
      * intros Hnil t Ht. destruct (has_text t) eqn:E; [|done].
        apply map_eq_nil in Hnil.
        assert (Hin : In t (List.filter has_text (page_texts doc)))
          by (by apply filter_In).
        by rewrite Hnil in Hin.
      * intros Hall.
        destruct (List.filter has_text (page_texts doc)) as [|t rest] eqn:E; [done|].
        assert (Hin : In t (List.filter has_text (page_texts doc)))
          by (rewrite E; by left).
        apply filter_In in Hin as [Hin Ht]. rewrite (Hall t Hin) in Ht. done.
    + apply List.Forall_forall. intros x Hx.
      apply in_map_iff in Hx as (t & <- & Ht). apply filter_In in Ht as [_ Ht].
      apply truthy_true. by rewrite truthy_strip.
Qed.

(** What the comprehension over the metadata keeps. *)
Lemma nonempty_items_In (items : dict (option str)) (k v : str) :
  In (k, v) (nonempty_items items) <-> In (k, Some v) items /\ v <> [].
Proof.
  induction items as [|[k' [v'|]] items IH]; simpl.
  - tauto.
  - destruct (truthy v') eqn:E; simpl; rewrite IH.
    + apply truthy_true in E.
      split; [intros [[= -> ->]|[? ?]]; auto | intros [[[= -> ->]|?] ?]; auto].
    + split; [tauto|]. intros [[[= -> ->]|?] Hv]; [|tauto].
      destruct v; [done|discriminate E].
  - rewrite IH. split; [tauto|]. intros [[?|?] ?]; [done|tauto].
Qed.

Lemma nonempty_items_get (items : dict (option str)) (k : str) :
  List.NoDup (dict_keys items) ->
  dict_get k (nonempty_items items) =
  match dict_get k items with
  | Some (Some v) => if truthy v then Some v else None
  | _ => None
  end.
Proof.
  induction items as [|[k' v'] items IH]; intros Hnd; [done|].
  apply NoDup_cons_iff in Hnd as [Hnot Hnd]. simpl.
  assert (Hskip : str_eqb k k' = true -> dict_get k (nonempty_items items) = None).
  { intros Heq. destruct (str_eqb_spec k k') as [->|]; [|done].
    apply dict_get_None. intros Hin. apply Hnot.
    apply in_map_iff in Hin as ([k0 v0] & <- & Hin).
    apply nonempty_items_In in Hin as [Hin _].
    by apply (in_map fst) in Hin. }
  specialize (IH Hnd).
  destruct (str_eqb k k') eqn:Ek.
  - specialize (Hskip eq_refl).
    destruct v' as [v'|]; [destruct (truthy v') eqn:E|]; simpl;
      rewrite ?Ek; done.
  - destruct v' as [v'|]; [destruct (truthy v') eqn:E|]; simpl;
      rewrite ?Ek; done.
Qed.

(** The metadata of a PDF result holds the entries of the document's
    metadata whose value is a non-empty string, and no other: an entry with
    the value [None] or the empty string is left out, and a document
    without metadata gives the empty mapping. *)
Theorem pdf_metadata_nonempty (doc : PdfDocument) :
  let r := parse_pdf_document doc in
  (forall k v, In (k, v) (pdf_metadata r) <->
     (exists m, metadata doc = Some m /\ In (k, Some v) m) /\ v <> [])
  /\ (forall m k,
        metadata doc = Some m -> List.NoDup (dict_keys m) ->
        dict_get k (pdf_metadata r) =
        match dict_get k m with
        | Some (Some v) => if truthy v then Some v else None
        | _ => None
        end)
  /\ (metadata doc = None -> pdf_metadata r = []).
Proof.
  intros r. unfold r, parse_pdf_document. cbn [pdf_metadata].
  split; [|split].
  - intros k v. destruct (metadata doc) as [m|].
    + rewrite nonempty_items_In. split.
      * intros [? ?]. eauto.
      * intros [(m' & [= <-] & ?) ?]. auto.
    + simpl. split; [done|]. by intros [(m' & ? & _) _].
  - intros m k -> Hnd. by apply nonempty_items_get.
  - by intros ->.
Qed.

(** ** DOCX *)

(** Every paragraph with text occurs in [full_text] as it is in the
    document, and [full_text] is empty exactly when no paragraph has text;
    the cells of the table data have no whitespace at either end; the two
    counts are the lengths of the paragraph list and of the table list. *)
Theorem docx_text_found (doc : DocxDocument) :
  let r := parse_docx_document doc in
  (forall p, In p (paragraphs doc) -> has_text p = true ->
     occurs_in p (docx_full_text r))
  /\ (docx_full_text r = [] <-> forall p, In p (paragraphs doc) -> has_text p = false)
  /\ (forall i j k cell,
        cell_at (docx_table_data r) i j k = Some cell -> strip cell = cell)
  /\ docx_paragraphs r = len (docx_content r)
  /\ docx_paragraphs r <= len (paragraphs doc)
  /\ docx_tables r = len (tables doc).
Proof.
  intros r. unfold r, parse_docx_document.
  cbn [docx_full_text docx_table_data docx_content docx_paragraphs docx_tables].
  rewrite filter_has_text.
  split; [|split; [|split; [|split; [|split]]]].
  - intros p Hp Ht. apply occurs_in_join, filter_In. by split.
  - rewrite str_join_empty_iff.
    + split.
      * intros Hnil p Hp. destruct (has_text p) eqn:E; [|done].
        assert (Hin : In p (List.filter has_text (paragraphs doc)))
          by (by apply filter_In).
        by rewrite Hnil in Hin.
      * intros Hall.
        destruct (List.filter has_text (paragraphs doc)) as [|p rest] eqn:E; [done|].
        assert (Hin : In p (List.filter has_text (paragraphs doc)))
          by (rewrite E; by left).
        apply filter_In in Hin as [Hin Hp]. by rewrite (Hall p Hin) in Hp.
    + apply List.Forall_forall. intros p Hp. apply filter_In in Hp as [_ Hp].
      apply truthy_true. by apply has_text_truthy.
  - intros i j k cell. rewrite cell_at_strip.
    destruct (cell_at (tables doc) i j k); simpl; [|done].
    intros [= <-]. apply strip_idempotent.
  - done.
  - unfold len. pose proof (filter_length_le has_text (paragraphs doc)). lia.
  - unfold len. by rewrite length_map.
Qed.

(** ** PPTX *)

Lemma slide_texts_clean (shapes : list Shape) (t : str) :
  In t (slide_texts shapes) -> t <> [] /\ clean_ends t = true.
Proof.
  unfold slide_texts. intros Ht.
  apply in_flat_map in Ht as (shape & _ & Ht). unfold shape_texts in Ht.
  destruct (text_frame shape) as [paras|]; [|done].
  apply filter_In in Ht as [Ht Htruthy]. split; [by apply truthy_true|].
  apply in_map_iff in Ht as (para & <- & _). apply strip_clean_ends.
Qed.

Lemma pptx_content_In (prs : Presentation) (s : PptxSlide) :
  In s (pptx_content (parse_pptx_document prs)) ->
  exists shapes, In shapes prs /\ slide_text s = slide_texts shapes.
Proof.
  unfold parse_pptx_document. cbn [pptx_content]. intros Hs.
  apply in_map_iff in Hs as ([i shapes] & <- & Hin).
  exists shapes. split; [|done].
  rewrite <- (enumerate_from_snd 0 prs). by apply (in_map snd) in Hin.
Qed.

(** The texts of the slides and [full_text] have no whitespace at either
    end; every text of every slide occurs in [full_text]; and [full_text]
    is empty exactly when no slide has a text. *)
Theorem pptx_text_trimmed_and_found (prs : Presentation) :
  let r := parse_pptx_document prs in
  (forall s t, In s (pptx_content r) -> In t (slide_text s) -> strip t = t)
  /\ strip (pptx_full_text r) = pptx_full_text r
  /\ (forall s t, In s (pptx_content r) -> In t (slide_text s) ->
        occurs_in t (pptx_full_text r))
  /\ (pptx_full_text r = [] <-> forall s, In s (pptx_content r) -> slide_text s = []).
Proof.
  intros r.
  assert (Hblock : forall s, In s (pptx_content r) -> slide_text s <> [] ->
                     slide_block s <> [] /\ clean_ends (slide_block s) = true).
  { intros s Hs Hne. split; [done|].
    destruct (pptx_content_In prs s Hs) as (shapes & _ & Heq).
    assert (Hjoin : clean_ends (str_join [LF] (slide_text s)) = true).
    { apply str_join_clean_ends, List.Forall_forall. intros t Ht.
      rewrite Heq in Ht. by apply slide_texts_clean in Ht. }
    assert (Hjoin_ne : str_join [LF] (slide_text s) <> []).
    { destruct (slide_text s) as [|t ts] eqn:E; [done|].
      apply (str_join_nonempty _ _ t); [by left|].
      assert (Ht : In t (slide_texts shapes)) by (rewrite <- Heq; by left).
      by apply slide_texts_clean in Ht as [? _]. }
    unfold slide_block, clean_ends in *.
    apply andb_true_iff in Hjoin as [_ Hlast].
    rewrite rev_app_distr.
    by rewrite (starts_clean_app (rev _)) by (by rewrite rev_nil_iff). }
  split; [|split; [|split]].
  - intros s t Hs Ht. apply clean_ends_strip.
    destruct (pptx_content_In prs s Hs) as (shapes & _ & Heq).
    rewrite Heq in Ht. by apply slide_texts_clean in Ht as [_ ?].
  - apply clean_ends_strip, str_join_clean_ends, List.Forall_forall.
    intros x Hx. apply in_map_iff in Hx as (s & <- & Hs).
    apply filter_In in Hs as [Hs Hne]. apply Hblock; [done|].
    by destruct (slide_text s).
  - intros s t Hs Ht.
    apply (occurs_in_trans _ (slide_block s)).
    + unfold slide_block. by apply occurs_in_app_l, occurs_in_join.
    + apply occurs_in_join, in_map, filter_In. split; [done|].
      by destruct (slide_text s).
  - unfold r, parse_pptx_document. cbn [pptx_full_text pptx_content].
    set (slides := map _ (enumerate_from 0 prs)).
    rewrite str_join_empty_iff.
    + split.
      * intros Hnil s Hs. apply map_eq_nil in Hnil.
        destruct (slide_text s) as [|t ts] eqn:E; [done|].
        assert (Hin : In s (List.filter (fun s => nonempty (slide_text s)) slides))
          by (apply filter_In; split; [done|by rewrite E]).
        by rewrite Hnil in Hin.
      * intros Hall.
        destruct (List.filter (fun s => nonempty (slide_text s)) slides)
          as [|s rest] eqn:E; [done|].
        assert (Hin : In s (List.filter (fun s => nonempty (slide_text s)) slides))
          by (rewrite E; by left).
        apply filter_In in Hin as [Hin Hs]. by rewrite (Hall s Hin) in Hs.
    + apply List.Forall_forall. intros x Hx.
      by apply in_map_iff in Hx as (s & <- & _).
Qed.

(** ** XLSX *)

Lemma existsb_str_eqb_In (k : str) (l : list str) :
  existsb (str_eqb k) l = true <-> In k l.
Proof.
  rewrite existsb_exists. split.
  - intros (x & Hx & Heq). by destruct (str_eqb_spec k x) as [->|].
  - intros Hin. exists k. by rewrite str_eqb_refl.
Qed.

(** Assigning to a key keeps the keys, or appends the new one. *)
Lemma dict_set_keys {V} (k : str) (v : V) (d : dict V) :
  dict_keys (dict_set k v d) =
  if existsb (str_eqb k) (dict_keys d) then dict_keys d else dict_keys d ++ [k].
Proof.
  induction d as [|[k' v'] d IH]; simpl; [done|].
  destruct (str_eqb k k'); simpl; [done|]. rewrite IH.
  by destruct (existsb (str_eqb k) (dict_keys d)).
Qed.

Lemma dict_set_NoDup {V} (k : str) (v : V) (d : dict V) :
  List.NoDup (dict_keys d) -> List.NoDup (dict_keys (dict_set k v d)).
Proof.
  intros Hnd. rewrite dict_set_keys.
  destruct (existsb (str_eqb k) (dict_keys d)) eqn:E; [done|].
  apply List.NoDup_app; [done|repeat constructor; by intros []|].
  intros x Hx [<-|[]]. apply existsb_str_eqb_In in Hx. congruence.
Qed.

Lemma collect_sheets_NoDup (wb : Workbook) (names : list str)
    (sheets : dict (list (list str))) :
  List.NoDup (dict_keys sheets) ->
  List.NoDup (dict_keys (collect_sheets wb names sheets)).
Proof.
  revert sheets; induction names as [|n names IH]; intros sheets Hnd; [done|].
  simpl. by apply IH, dict_set_NoDup.
Qed.

(** The sheet list of the result names every sheet of the workbook once;
    [sheet_count] is its length; when the titles of the workbook are
    distinct the list is the workbook's, in its order; and [full_text] is
    empty exactly for a workbook without sheets. *)
Theorem xlsx_sheets_in_order (wb : Workbook) :
  let r := parse_xlsx_document wb in
  List.NoDup (xlsx_sheets r)
  /\ (forall n, In n (xlsx_sheets r) <-> In n (sheetnames wb))
  /\ xlsx_sheet_count r = len (xlsx_sheets r)
  /\ (List.NoDup (sheetnames wb) ->
      xlsx_sheets r = sheetnames wb /\ xlsx_sheet_count r = len wb)
  /\ (xlsx_full_text r = [] <-> wb = []).
Proof.
  intros r. unfold r, parse_xlsx_document.
  cbn [xlsx_sheets xlsx_sheet_count xlsx_full_text].
  set (sheets := collect_sheets wb (sheetnames wb) []).
  assert (Hkeys : forall n, In n (dict_keys sheets) <-> In n (sheetnames wb)).
  { intros n. split.
    - intros Hin. destruct (dict_get n sheets) as [rows|] eqn:E.
      + unfold sheets in E. rewrite collect_sheets_get in E.
        destruct (existsb (str_eqb n) (sheetnames wb)) eqn:Ex; [|done].
        by apply existsb_str_eqb_In.
      + by apply dict_get_None in E.
    - intros Hin. apply (dict_get_Some_In n (sheet_rows (wb_getitem wb n))).
      unfold sheets. rewrite collect_sheets_get.
      by rewrite (proj2 (existsb_str_eqb_In n _) Hin). }
  split; [|split; [|split; [|split]]].
  - apply collect_sheets_NoDup. constructor.
  - done.
  - unfold len, dict_keys. by rewrite length_map.
  - intros Hnd. unfold sheets.
    rewrite collect_sheets_distinct by (done || (intros ? _ [])).
    simpl app. unfold dict_keys, len, sheetnames.
    rewrite !map_map, !length_map. split; [|done].
    by apply map_ext.
  - rewrite str_join_empty_iff.
    + split.
      * intros Hnil. apply map_eq_nil in Hnil.
        destruct wb as [|[n ws] wb']; [done|]. exfalso.
        assert (Hin : In n (dict_keys sheets)) by (apply Hkeys; by left).
        by rewrite Hnil in Hin.
      * by intros ->.
    + apply List.Forall_forall. intros x Hx.
      by apply in_map_iff in Hx as ([n rows] & <- & _).
Qed.

(** For every sheet of the result, its name between brackets occurs in
    [full_text], each of its rows occurs as a line of tab-separated cells,
    and so every cell of every row that is kept occurs in [full_text]. *)
Theorem xlsx_cells_found (wb : Workbook) (name : str) (rows : list (list str)) :
  In (name, rows) (xlsx_data (parse_xlsx_document wb)) ->
  let full := xlsx_full_text (parse_xlsx_document wb) in
  occurs_in (u "[" ++ name ++ u "]" ++ [LF]) full
  /\ (forall row, In row rows -> occurs_in (str_join [TAB] row) full)
  /\ (forall row cell, In row rows -> In cell row -> occurs_in cell full).
Proof.
  intros Hin full.
  assert (Hsheet : occurs_in (sheet_text (name, rows)) full).
  { unfold full, parse_xlsx_document. cbn [xlsx_full_text xlsx_data] in *.
    by apply occurs_in_join, in_map. }
  assert (Hrow : forall row, In row rows -> occurs_in (str_join [TAB] row) full).
  { intros row Hr. apply (occurs_in_trans _ (sheet_text (name, rows))); [|done].
    unfold sheet_text. by apply occurs_in_app_l, occurs_in_join, in_map. }
  split; [|split; [done|]].
  - apply (occurs_in_trans _ (sheet_text (name, rows))); [|done].
    unfold sheet_text. rewrite <- !app_assoc.
    exists [], (str_join [LF] (map (str_join [TAB]) rows)).
    by rewrite <- !app_assoc.
  - intros row cell Hr Hc.
    apply (occurs_in_trans _ (str_join [TAB] row)); [|by apply Hrow].
    by apply occurs_in_join.
Qed.

(** The theorem at the sheet of the sample workbook. *)
Lemma xlsx_cells_found_witness :
  occurs_in (u "d") (xlsx_full_text (parse_xlsx_document sample_workbook)).
Proof.
  exact (proj2 (proj2
    (xlsx_cells_found sample_workbook (u "Sheet1") [[u "a"; u "b"]; [u "c"; u "d"]]
       (or_introl eq_refl)))
    [u "c"; u "d"] (u "d") (or_intror (or_introl eq_refl))
    (or_intror (or_introl eq_refl))).
Defined.

(* ===================================================================== *)
(** * Part XVIII.  HTML trees                                             *)
(* ===================================================================== *)

(** [find] in a tag: the tag itself, or the first find among its children. *)
Lemma find_tag_Tag (name name' : str) (contents : list Node) :
  find_tag name (Tag name' contents) =
  if str_eqb name' name then Some contents else soup_find name contents.
Proof.
  simpl. destruct (str_eqb name' name); [done|].
  induction contents as [|c l IH]; simpl; [done|].
  by destruct (find_tag name c).
Qed.

Lemma soup_find_In (name : str) (soup : Soup) (contents : list Node) :
  soup_find name soup = Some contents ->
  exists n, In n soup /\ find_tag name n = Some contents.
Proof.
  induction soup as [|n soup IH]; simpl; [done|].
  destruct (find_tag name n) as [r|] eqn:E.
  - intros [= <-]. exists n. by split; [left|].
  - intros H. destruct (IH H) as (m & Hm & Hfind). exists m. by split; [right|].
Qed.

(** The strings under a tag that [find] returns are strings of the tree. *)
Lemma find_tag_strings (name : str) (n : Node) :
  forall contents x,
    find_tag name n = Some contents ->
    In x (flat_map all_strings contents) -> In x (all_strings n).
Proof.
  induction n as [s|s|name' cs IH] using Node_nested_ind;
    intros contents x Hfind Hx; try done.
  rewrite find_tag_Tag in Hfind. simpl all_strings.
  destruct (str_eqb name' name); [by injection Hfind as <-|].
  apply soup_find_In in Hfind as (c & Hc & Hfind).
  apply in_flat_map. exists c. split; [done|].
  rewrite List.Forall_forall in IH. by apply (IH c Hc contents).
Qed.

(** Every string [get_text] collects is trimmed and not empty. *)
Lemma all_strings_clean (n : Node) :
  forall x, In x (all_strings n) -> x <> [] /\ clean_ends x = true.
Proof.
  induction n as [s|s|name cs IH] using Node_nested_ind; intros x Hx.
  - simpl in Hx. destruct (truthy (strip s)) eqn:E; [|done].
    destruct Hx as [<-|[]]. split; [by apply truthy_true|apply strip_clean_ends].
  - done.
  - simpl in Hx. apply in_flat_map in Hx as (c & Hc & Hx).
    rewrite List.Forall_forall in IH. by apply (IH c Hc).
Qed.

(** After the loop over [script] and [style] no such tag is left. *)
Lemma decompose_all_no_tag (names : list str) (n : Node) :
  existsb (has_tag names) (decompose_all names n) = false.
Proof.
  induction n as [s|s|name cs IH] using Node_nested_ind; try done.
  simpl decompose_all. destruct (existsb (str_eqb name) names) eqn:E; [done|].
  simpl. rewrite E, orb_false_r. simpl.
  induction IH as [|c cs' Hc _ IHcs]; [done|].
  simpl. by rewrite existsb_app, Hc, IHcs.
Qed.

(** A tree without such a tag is left as it is. *)
Lemma decompose_all_fixed (names : list str) (n : Node) :
  has_tag names n = false -> decompose_all names n = [n].
Proof.
  induction n as [s|s|name cs IH] using Node_nested_ind; try done.
  simpl. intros H. apply orb_false_iff in H as [Hname Hcs]. rewrite Hname.
  do 2 f_equal.
  induction IH as [|c cs' Hc _ IHcs]; [done|].
  simpl in *. apply orb_false_iff in Hcs as [Hc' Hcs'].
  by rewrite (Hc Hc'), (IHcs Hcs').
Qed.

Lemma decompose_soup_no_tag (names : list str) (soup : Soup) :
  existsb (has_tag names) (flat_map (decompose_all names) soup) = false.
Proof.
  induction soup as [|n soup IH]; [done|].
  simpl. by rewrite existsb_app, decompose_all_no_tag, IH.
Qed.

Lemma decompose_soup_fixed (names : list str) (soup : Soup) :
  existsb (has_tag names) soup = false ->
  flat_map (decompose_all names) soup = soup.
Proof.
  induction soup as [|n soup IH]; [done|].
  simpl. intros H. apply orb_false_iff in H as [Hn Hsoup].
  by rewrite (decompose_all_fixed _ _ Hn), (IH Hsoup).
Qed.

(** What [get_text] collects after the loop over [script] and [style]:
    the visible strings that have text, trimmed. *)
Lemma all_strings_decompose (n : Node) :
  flat_map all_strings (decompose_all [u "script"; u "style"] n)
  = map strip (List.filter has_text (visible_strings n)).
Proof.
  induction n as [s|s|name cs IH] using Node_nested_ind.
  - cbn [decompose_all flat_map all_strings visible_strings List.filter].
    rewrite truthy_strip, app_nil_r. by destruct (has_text s).
  - done.
  - cbn [decompose_all visible_strings existsb]. rewrite orb_false_r.
    destruct (str_eqb name (u "script") || str_eqb name (u "style")); [done|].
    cbn [flat_map all_strings]. rewrite app_nil_r.
    induction IH as [|c cs' Hc _ IHcs]; [done|].
    cbn [flat_map]. rewrite flat_map_app, Hc, IHcs.
    by rewrite List.filter_app, map_app.
Qed.

Lemma html_full_text_eq (soup : Soup) :
  html_full_text (parse_html_soup soup)
  = str_join [LF] (map strip (List.filter has_text (flat_map visible_strings soup))).
Proof.
  unfold parse_html_soup, get_text. cbn [html_full_text]. f_equal.
  induction soup as [|n soup IH]; [done|].
  cbn [flat_map]. rewrite flat_map_app, all_strings_decompose, IH.
  by rewrite List.filter_app, map_app.
Qed.

(** In the tree the HTML strategy reads its title and text from, no
    [script] and no [style] element is left, at any depth, and a tree
    without such elements is read as it is.  [full_text] is made of the
    plain strings of the parsed tree that have no [script] or [style]
    element above them, at any depth: those with text, trimmed, in document
    order, joined by newlines.  The strings on either side of a removed
    element stay separate lines: the tree of
    [<p>a<script>x()</script>b</p>] gives [a], a newline, [b]. *)
Theorem html_script_style_removed (soup : Soup) :
  let names := [u "script"; u "style"] in
  let kept := flat_map (decompose_all names) soup in
  existsb (has_tag names) kept = false
  /\ (existsb (has_tag names) soup = false -> kept = soup)
  /\ html_full_text (parse_html_soup soup) =
     str_join [LF]
       (map strip (List.filter has_text (flat_map visible_strings soup)))
  /\ parse_html_soup
       [Tag (u "p")
          [NavigableString (u "a");
           Tag (u "script") [NavigableString (u "x()")];
           NavigableString (u "b")]]
     = {| html_title := Some []; html_full_text := u "a" ++ [LF] ++ u "b" |}
  /\ parse_html_soup
       [Tag (u "html")
          [Tag (u "body")
             [Tag (u "div")
                [Tag (u "style") [NavigableString (u "p{}")];
                 Tag (u "p") [NavigableString (u " hi "); Comment (u "note")]];
              Tag (u "script") [NavigableString (u "var t")]]]]
     = {| html_title := Some []; html_full_text := u "hi" |}.
Proof.
  intros names kept. split; [|split; [|split; [|split]]].
  - apply decompose_soup_no_tag.
  - apply decompose_soup_fixed.
  - apply html_full_text_eq.
  - reflexivity.
  - reflexivity.
Qed.

(** [full_text] has no whitespace at either end; every plain string of the
    parsed tree that has text and no [script] or [style] element above it
    occurs in [full_text], trimmed; and [full_text] is empty exactly when
    no such string has text. *)
Theorem html_text_trimmed (soup : Soup) :
  let r := parse_html_soup soup in
  let visible := flat_map visible_strings soup in
  strip (html_full_text r) = html_full_text r
  /\ (forall s, In s visible -> has_text s = true ->
        occurs_in (strip s) (html_full_text r))
  /\ (html_full_text r = [] <-> forall s, In s visible -> has_text s = false).
Proof.
  intros r visible. unfold r. rewrite html_full_text_eq. fold visible.
  assert (Hparts : Forall (fun p => p <> [] /\ clean_ends p = true)
                     (map strip (List.filter has_text visible))).
  { apply List.Forall_forall. intros x Hx.
    apply in_map_iff in Hx as (s & <- & Hs). apply filter_In in Hs as [_ Hs].
    split; [|apply strip_clean_ends].
    apply truthy_true. by rewrite truthy_strip. }
  split; [|split].
  - by apply clean_ends_strip, str_join_clean_ends.
  - intros s Hs Ht. apply occurs_in_join, in_map, filter_In. by split.
  - rewrite str_join_empty_iff
      by (eapply List.Forall_impl; [|exact Hparts]; by intros ? [? _]).
    split.
    + intros Hnil s Hs. destruct (has_text s) eqn:E; [|done].
      apply map_eq_nil in Hnil.
      assert (Hin : In s (List.filter has_text visible)) by (by apply filter_In).
      by rewrite Hnil in Hin.
    + intros Hall.
      destruct (List.filter has_text visible) as [|s rest] eqn:E; [done|].
      assert (Hin : In s (List.filter has_text visible)) by (rewrite E; by left).
      apply filter_In in Hin as [Hin Hs]. by rewrite (Hall s Hin) in Hs.
Qed.

(** When the first [title] element of the page holds one string, the
    title of the result is that string as it is, and the string, trimmed,
    occurs in [full_text] as well: the title is part of the text. *)
Theorem html_title_in_full_text (soup : Soup) (s : str) :
  soup_find (u "title")
    (flat_map (decompose_all [u "script"; u "style"]) soup)
  = Some [NavigableString s] ->
  let r := parse_html_soup soup in
  html_title r = Some s
  /\ (has_text s = true -> occurs_in (strip s) (html_full_text r)).
Proof.
  intros Hfind r. split.
  - unfold r, parse_html_soup. cbn [html_title]. by rewrite Hfind.
  - intros Htext. unfold r, parse_html_soup, get_text. cbn [html_full_text].
    apply occurs_in_join.
    apply soup_find_In in Hfind as (n & Hn & Hfind).
    apply in_flat_map. exists n. split; [done|].
    apply (find_tag_strings (u "title") n [NavigableString s]); [done|].
    simpl. rewrite truthy_strip, Htext. by left.
Qed.

(** The theorem at a page with the title [ Hi ]. *)
Lemma html_title_in_full_text_witness :
  let soup :=
    [Tag (u "html")
       [Tag (u "head") [Tag (u "title") [NavigableString (u " Hi ")]];
        Tag (u "body") [Tag (u "p") [NavigableString (u "x")]]]] in
  html_title (parse_html_soup soup) = Some (u " Hi ")
  /\ occurs_in (u "Hi") (html_full_text (parse_html_soup soup)).
Proof.
  cbv zeta.
  destruct (html_title_in_full_text
              [Tag (u "html")
                 [Tag (u "head") [Tag (u "title") [NavigableString (u " Hi ")]];
                  Tag (u "body") [Tag (u "p") [NavigableString (u "x")]]]]
              (u " Hi ") eq_refl) as [Htitle Hoccurs].
  split; [exact Htitle|exact (Hoccurs eq_refl)].
Defined.

(* ===================================================================== *)
(** * Part XIX.  The registry and the coordinator                         *)
(* ===================================================================== *)

(** ** Every registered extension is reachable *)

Lemma ascii_lower_char_is (c x : N) :
  (x < 65 \/ 122 < x)%N -> ascii_lower_char c = x -> c = x.
Proof.
  unfold ascii_lower_char. intros Hx.
  destruct ((65 <=? c) && (c <=? 90))%N eqn:E; [|done].
  apply andb_true_iff in E as [H1 H2]. apply N.leb_le in H1, H2. lia.
Qed.

Lemma ascii_lower_char_eqb (c x : N) :
  (x < 65 \/ 122 < x)%N -> N.eqb (ascii_lower_char c) x = N.eqb c x.
Proof.
  intros Hx. destruct (N.eqb_spec c x) as [->|Hne].
  - unfold ascii_lower_char.
    destruct (N.leb_spec 65 x); destruct (N.leb_spec x 90); simpl;
      apply N.eqb_eq; lia.
  - apply N.eqb_neq. intros H. by apply ascii_lower_char_is in H.
Qed.

(** Lower-casing neither makes nor removes a dot or a slash. *)
Lemma no_dot_lower (e : str) : no_dot (map ascii_lower_char e) = no_dot e.
Proof.
  unfold no_dot. induction e as [|c e IH]; [done|]. simpl.
  rewrite IH, ascii_lower_char_eqb; [done|]. unfold extsep. lia.
Qed.

Lemma no_sep_lower (e : str) : no_sep (map ascii_lower_char e) = no_sep e.
Proof.
  unfold no_sep. induction e as [|c e IH]; [done|]. simpl.
  rewrite IH, ascii_lower_char_eqb; [done|]. unfold sep. lia.
Qed.

(** Every key of the registry is a dot followed by text without dot or
    slash, and the key is looked up to its own strategy. *)
Lemma registry_keys (ext : str) (parser : Parser) :
  In (ext, parser) PARSERS ->
  exists rest,
    ext = extsep :: rest /\ no_dot rest = true /\ no_sep rest = true
    /\ dict_get ext PARSERS = Some parser.
Proof.
  unfold PARSERS. intros Hin.
  repeat (destruct Hin as [[= <- <-]|Hin];
          [eexists; repeat split; reflexivity|]).
  destruct Hin.
Qed.

(** Whatever the registry holds for an extension, a file whose name ends
    in that extension, in any mix of upper and lower case, after a base
    name that is not made of dots, is sent to that strategy; the extension
    is one of those [GET /formats] lists; and the extension of every name
    that resolves is listed there too. *)
Theorem registered_extensions_reachable (L : Libraries) (base ext ext' : str)
    (parser : Parser) :
  In (ext, parser) PARSERS ->
  stem_ok base = true ->
  forallb is_ascii ext' = true ->
  map ascii_lower_char ext' = ext ->
  resolve L (base ++ ext') = Some parser
  /\ In ext supported_formats
  /\ (forall name p,
        resolve L name = Some p -> In (extension L name) supported_formats).
Proof.
  intros Hin Hbase Hascii Hlower.
  destruct (registry_keys ext parser Hin) as (rest & -> & Hdot & Hsep & Hget).
  assert (Hlisted : forall e p, dict_get e PARSERS = Some p -> In e supported_formats).
  { intros e p He. unfold supported_formats.
    eapply Permutation_in; [apply sorted_perm|]. by eapply dict_get_Some_In. }
  split; [|split; [by eapply Hlisted|]].
  - destruct ext' as [|c rest']; [done|]. injection Hlower as Hc Hrest.
    apply ascii_lower_char_is in Hc; [subst c|unfold extsep; lia].
    assert (Hdot' : no_dot rest' = true) by (by rewrite <- no_dot_lower, Hrest).
    assert (Hsep' : no_sep rest' = true) by (by rewrite <- no_sep_lower, Hrest).
    unfold resolve. rewrite extension_spec, Hsep', Hbase by done. simpl andb.
    rewrite str_lower_ascii by done. simpl map.
    by rewrite Hrest.
  - intros name p Hres. by eapply Hlisted.
Qed.

(** The theorem at [report.DocX]. *)
Lemma registered_extensions_reachable_witness :
  resolve sample_libraries (u "report.DocX") = Some parse_docx.
Proof.
  exact (proj1 (registered_extensions_reachable sample_libraries
                  (u "report") (u ".docx") (u ".DocX") parse_docx
                  (or_intror (or_introl eq_refl)) eq_refl eq_refl eq_refl)).
Defined.

(** ** One request *)

(** When the name picked for the temporary file is not the name of a file
    that is there, as [NamedTemporaryFile] ensures, a request leaves the
    files exactly as it found them, whatever it returns. *)
Theorem parse_document_restores_files (L : Libraries) (upload_name : option str)
    (content : bytes) (elapsed : Z) (w : World) :
  files w !! mkstemp_name L (files w)
               (extension L (filename_or_default upload_name)) = None ->
  files (snd (parse_document L upload_name content elapsed w)) = files w.
Proof.
  intros Hfresh. unfold parse_document.
  destruct (dict_get _ PARSERS) as [parser|]; [|done].
  unfold NamedTemporaryFile, file_write, os_unlink.
  cbn [files journal]. rewrite lookup_insert_eq. cbn [snd files].
  rewrite insert_insert_eq. by apply delete_insert_id.
Qed.

(** The theorem at [notes.md] uploaded beside a file that stays. *)
Lemma parse_document_restores_files_witness :
  files (snd (parse_document sample_libraries (Some (u "notes.md")) (b "Hello") 0
                (world_with (u "/srv/keep.txt") (b "kept"))))
  = files (world_with (u "/srv/keep.txt") (b "kept")).
Proof.
  apply (parse_document_restores_files sample_libraries (Some (u "notes.md"))
           (b "Hello") 0 (world_with (u "/srv/keep.txt") (b "kept"))).
  apply lookup_singleton_ne. discriminate.
Defined.

(** With a registered extension, what leaves the handler is what the
    [try] block gives for the strategy run on the temporary file. *)
Lemma outcome_when_supported (L : Libraries) (upload_name : option str)
    (content : bytes) (elapsed : Z) (w : World) (parser : Parser) :
  resolve L (filename_or_default upload_name) = Some parser ->
  fst (parse_document L upload_name content elapsed w) =
  try_parse L parser (filename_or_default upload_name) content elapsed
    (mkstemp_name L (files w) (extension L (filename_or_default upload_name)))
    {| files :=
         <[mkstemp_name L (files w) (extension L (filename_or_default upload_name))
           := content]> (files w);
       journal :=
         journal w ++
         [Created (mkstemp_name L (files w)
                     (extension L (filename_or_default upload_name)));
          Written (mkstemp_name L (files w)
                     (extension L (filename_or_default upload_name))) content] |}.
Proof.
  intros Hres. unfold parse_document, resolve in *. rewrite Hres.
  unfold NamedTemporaryFile, file_write, os_unlink.
  cbn [files journal]. by rewrite insert_insert_eq, lookup_insert_eq, <- app_assoc.
Qed.

(** The status 400 leaves the handler exactly when the extension is not
    registered.  With a registered extension, an [Exception] raised by the
    strategy leaves as the status 500 with the detail [Failed to parse],
    the file name and the text of the exception; so does a
    [FileNotFoundError], and so does an [HTTPException] of the strategy,
    whose own status is not passed on; an exception that is not an
    [Exception] leaves the handler as it is. *)
Theorem parse_document_outcomes (L : Libraries) (upload_name : option str)
    (content : bytes) (elapsed : Z) (w : World) :
  let name := filename_or_default upload_name in
  let tmp_path := mkstemp_name L (files w) (extension L name) in
  let during :=
    {| files := <[tmp_path := content]> (files w);
       journal := journal w ++ [Created tmp_path; Written tmp_path content] |} in
  let outcome := fst (parse_document L upload_name content elapsed w) in
  ((exists detail, outcome = Raise (HTTPException 400 detail))
   <-> resolve L name = None)
  /\ (forall parser,
        resolve L name = Some parser ->
        (forall msg,
           parser L tmp_path during = Raise (Exception msg) ->
           outcome =
           Raise (HTTPException 500 (u "Failed to parse " ++ name ++ u ": " ++ msg)))
        /\ (forall path,
              parser L tmp_path during = Raise (FileNotFoundError path) ->
              outcome =
              Raise (HTTPException 500
                       (u "Failed to parse " ++ name
                        ++ u ": [Errno 2] No such file or directory: '"
                        ++ path ++ u "'")))
        /\ (forall code detail,
              parser L tmp_path during = Raise (HTTPException code detail) ->
              outcome =
              Raise (HTTPException 500
                       (u "Failed to parse " ++ name ++ u ": "
                        ++ u (NilZero.string_of_int (Z.to_int code))
                        ++ u ": " ++ detail)))
        /\ (forall msg,
              parser L tmp_path during = Raise (BaseException msg) ->
              outcome = Raise (BaseException msg))).
Proof.
  intros name tmp_path during outcome. split.
  - split.
    + intros [detail Hout].
      destruct (resolve L name) as [parser|] eqn:Hres; [exfalso|done].
      unfold outcome in Hout.
      rewrite (outcome_when_supported L upload_name content elapsed w parser Hres)
        in Hout.
      unfold try_parse in Hout.
      destruct (parser L _ _) as [d|e]; [done|].
      by destruct e.
    + intros Hres. exists (unsupported_detail (extension L name)).
      unfold outcome, parse_document. fold name.
      unfold resolve in Hres. by rewrite Hres.
  - intros parser Hres.
    assert (Hout : outcome =
                   try_parse L parser name content elapsed tmp_path during)
      by apply (outcome_when_supported L upload_name content elapsed w parser Hres).
    unfold try_parse in Hout.
    repeat split; intros; rewrite Hout;
      match goal with H : parser L tmp_path during = _ |- _ => rewrite H end;
      cbn [is_Exception]; unfold failed_detail, exc_str, str_of_int;
      by rewrite <- ?app_assoc.
Qed.

(* ===================================================================== *)
(** * Part XX.  Well-formed UTF-8                                         *)
(* ===================================================================== *)

(** Settles the comparisons of the goal from the bounds at hand. *)
Ltac settle_comparisons :=
  repeat match goal with
         | |- context [(?x <? ?y)%N] => destruct (N.ltb_spec x y); try lia
         | |- context [(?x <=? ?y)%N] => destruct (N.leb_spec x y); try lia
         | |- context [(?x =? ?y)%N] => destruct (N.eqb_spec x y); try lia
         end.

(** Arithmetic with quotients and remainders by constants. *)
Ltac divlia := zify; Z.to_euclidean_division_equations; lia.

(** The decoder on the well-formed sequences of two, three and four
    bytes. *)
Lemma utf8_decode_two (b1 b2 : N) (rest : list N) :
  (194 <= b1 < 224)%N -> (128 <= b2 < 192)%N ->
  utf8_decode_N (b1 :: b2 :: rest) = code2 b1 b2 :: utf8_decode_N rest.
Proof.
  intros H1 H2. cbn [utf8_decode_N]. unfold is_continuation.
  settle_comparisons. done.
Qed.

Lemma utf8_decode_three (b1 b2 b3 : N) (rest : list N) :
  (224 <= b1 < 240)%N -> (128 <= b2 < 192)%N -> (128 <= b3 < 192)%N ->
  (b1 = 224 -> 160 <= b2)%N -> (b1 = 237 -> b2 < 160)%N ->
  utf8_decode_N (b1 :: b2 :: b3 :: rest) = code3 b1 b2 b3 :: utf8_decode_N rest.
Proof.
  intros H1 H2 H3 Hlow Hsur. cbn [utf8_decode_N].
  unfold bad_second3, is_continuation.
  settle_comparisons; done.
Qed.

Lemma utf8_decode_four (b1 b2 b3 b4 : N) (rest : list N) :
  (240 <= b1 < 245)%N -> (128 <= b2 < 192)%N -> (128 <= b3 < 192)%N ->
  (128 <= b4 < 192)%N ->
  (b1 = 240 -> 144 <= b2)%N -> (b1 = 244 -> b2 < 144)%N ->
  utf8_decode_N (b1 :: b2 :: b3 :: b4 :: rest)
  = code4 b1 b2 b3 b4 :: utf8_decode_N rest.
Proof.
  intros H1 H2 H3 H4 Hlow Hhigh. cbn [utf8_decode_N].
  unfold bad_second4, is_continuation.
  settle_comparisons; done.
Qed.

(** The decoder reads back the encoding of a code point. *)
Lemma utf8_decode_encode_char (c : N) (rest : list N) :
  is_scalar c = true ->
  utf8_decode_N (utf8_encode_char c ++ rest) = c :: utf8_decode_N rest.
Proof.
  unfold is_scalar, utf8_encode_char. intros Hc.
  assert (Hscalar : (c < 55296 \/ 57344 <= c < 1114112)%N).
  { apply orb_true_iff in Hc as [Hc|Hc]; [left; by apply N.ltb_lt|right].
    apply andb_true_iff in Hc as [H1 H2].
    apply N.leb_le in H1. apply N.ltb_lt in H2. lia. }
  clear Hc.
  destruct (N.ltb_spec c 128) as [H1|H1].
  { cbn [app utf8_decode_N]. by rewrite (proj2 (N.ltb_lt c 128) H1). }
  destruct (N.ltb_spec c 2048) as [H2|H2].
  { cbn [app]. rewrite utf8_decode_two by divlia.
    f_equal. unfold code2. divlia. }
  destruct (N.ltb_spec c 65536) as [H3|H3].
  { cbn [app]. rewrite utf8_decode_three by divlia.
    f_equal. unfold code3. divlia. }
  cbn [app]. rewrite utf8_decode_four by divlia.
  f_equal. unfold code4. divlia.
Qed.

(** The decoder reads back the encoding of a text, with no replacement. *)
Lemma utf8_decode_encode (s : str) :
  forallb is_scalar s = true -> utf8_decode_N (utf8_encode s) = s.
Proof.
  induction s as [|c s IH]; [done|]. simpl.
  intros H. apply andb_true_iff in H as [Hc Hs].
  by rewrite utf8_decode_encode_char, IH.
Qed.

(** A file that holds the UTF-8 encoding of a text is read back as that
    text, with every CRLF and lone CR turned into LF and no replacement
    character added: without a carriage return in the text, [full_text] is
    the text and [characters] its length. *)
Theorem valid_utf8_is_read_back (L : Libraries) (path : str) (w : World)
    (data : bytes) (s : str) :
  files w !! path = Some data ->
  map Byte.to_N data = utf8_encode s ->
  forallb is_scalar s = true ->
  utf8_decode_replace data = s
  /\ parse_text L path w =
     Ok (TextDoc (parse_text_content (universal_newlines s)))
  /\ (~ In CR s ->
      parse_text L path w =
      Ok (TextDoc {| text_full_text := s;
                     text_lines := str_count LF s + 1;
                     text_characters := len s |})).
Proof.
  intros Hfile Hdata Hs.
  assert (Hdecode : utf8_decode_replace data = s).
  { unfold utf8_decode_replace. rewrite Hdata. by apply utf8_decode_encode. }
  assert (Hparse : parse_text L path w =
                   Ok (TextDoc (parse_text_content (universal_newlines s)))).
  { unfold parse_text, open_read. rewrite Hfile. cbv [mbind result_bind].
    unfold read_text. by rewrite Hdecode. }
  split; [done|]. split; [done|].
  intros Hcr. by rewrite Hparse, universal_newlines_no_CR.
Qed.

(** The theorem at a file holding the encodings of U+00E9, U+20AC and
    U+1F600. *)
Lemma valid_utf8_is_read_back_witness :
  utf8_decode_replace [xc3; xa9; xe2; x82; xac; xf0; x9f; x98; x80]
  = [233; 8364; 128512]%N.
Proof.
  exact (proj1 (valid_utf8_is_read_back sample_libraries (u "/tmp/tmpq3x8k2_a.txt")
                  (world_with (u "/tmp/tmpq3x8k2_a.txt")
                     [xc3; xa9; xe2; x82; xac; xf0; x9f; x98; x80])
                  [xc3; xa9; xe2; x82; xac; xf0; x9f; x98; x80]
                  [233; 8364; 128512]%N
                  (lookup_singleton_eq _ _) eq_refl eq_refl)).
Defined.
